(** * deepl-go: a client of the DeepL translation API

    A shallow embedding of [deepl.go] (package [deepl]) and of the older
    variant of [TranslateSentence] that the repository also carries.

    Go values are modelled as follows.
    - [string] is a Go string (a sequence of bytes); [list byte] is [[]byte].
    - A pair [(option T * option error)] is a Go result made of a pointer to
      a [T] and an error: [None] on the left is the nil pointer, [None] on
      the right the nil error.
    - [xerrors] values keep the format string of the call that built them.
    - The functions of the Go standard library that work on text
      (the JSON scanner, [url.Parse], [path.Join], the query codec,
      [URL.String], [http.NewRequest]) are the fields of [GoRuntime]; the
      development is parametric in them, and [std] is a reference
      implementation used to run the examples. *)

From Stdlib Require Import ZArith String Ascii List Bool.
From Stdlib.Strings Require Import Byte.
From stdpp Require Import base option gmap strings list sorting.

Set Warnings "-register-all".

Local Open Scope string_scope.
Local Open Scope Z_scope.

(** ** Errors ([golang.org/x/xerrors] and the errors of the libraries) *)

Inductive error : Type :=
| xerrors_New (text : string)
| xerrors_Errorf (format : string) (a : fmt_args)
| json_SyntaxError
| json_UnmarshalTypeError (Value GoType : string)
| foreign_error (text : string)
with fmt_args : Type :=
| no_args
| arg_s (s : string)
| arg_w (err : error).

(** The verbs the package uses: [%s] and [%w]. *)
Definition is_verb (c : ascii) : bool :=
  (Ascii.eqb c "s" || Ascii.eqb c "w")%char.

(** [fmt.Sprintf] for a format with at most one verb: the first verb is
    replaced by [arg]. *)
Fixpoint subst_verb (format arg : string) : string :=
  match format with
  | EmptyString => EmptyString
  | String c rest =>
      match rest with
      | String v rest' =>
          if (Ascii.eqb c "%" && is_verb v)%char then arg +:+ rest'
          else String c (subst_verb rest arg)
      | EmptyString => String c EmptyString
      end
  end.

(** The [Error()] method. *)
Fixpoint Error (e : error) : string :=
  match e with
  | xerrors_New text => text
  | xerrors_Errorf format a =>
      match a with
      | no_args => format
      | arg_s s => subst_verb format s
      | arg_w err => subst_verb format (Error err)
      end
  | json_SyntaxError => "invalid character in JSON input"
  | json_UnmarshalTypeError v t =>
      "json: cannot unmarshal " +:+ v +:+ " into Go value of type " +:+ t
  | foreign_error text => text
  end.

(** The taxonomy of the specification (section 7).  The code has one error
    type; a category is read off the place that built the error. *)
Inductive Category : Type :=
| ConfigError | NetworkError | DecodeError | ProviderError.

Definition provider_messages : list string :=
  [ "Authorization failed. Please supply a valid auth_key parameter."
  ; "The requested resource clould not be found."
  ; "The request size exceeds the limit."
  ; "Too many requests. Please wait and resend your request."
  ; "Quota exceeded. The character limit has been reached."
  ; "Resource currently unavailable. Try again later."
  ; "Internal error"
  ; "Unexpected error" ].

Definition mem_string (s : string) (l : list string) : bool :=
  existsb (String.eqb s) l.

Definition category (e : error) : option Category :=
  match e with
  | xerrors_New text =>
      if mem_string text ["Not set API key environment"; "DEEPL_API_KEY is empty"]
      then Some ConfigError
      else if mem_string text provider_messages then Some ProviderError
      else None
  | xerrors_Errorf format no_args =>
      if String.eqb format "Failed to parse URL" then Some ConfigError else None
  | xerrors_Errorf format (arg_s _) =>
      if String.eqb format
           "Bad request. Please check error message and your parameters. Error message is %s"
      then Some ProviderError else None
  | xerrors_Errorf format (arg_w _) =>
      if mem_string format ["Failed to parse Json: %w"; "Failed to decode error response: %w"]
      then Some DecodeError
      else if mem_string format ["Failed to send http request: %w"; "Failed to read response: %w"]
      then Some NetworkError
      else None
  | _ => None
  end.

(** ** JSON values and [encoding/json.Unmarshal] *)

(** A number keeps what [Unmarshal] needs to store it in an [int]: the value
    of an integer literal, or the text of a literal with a fraction or an
    exponent. *)
Inductive json : Type :=
| JNull
| JBool (b : bool)
| JInt (n : Z)
| JFloat (lit : string)
| JString (s : string)
| JArray (elems : list json)
| JObject (members : list (string * json)).

Definition json_kind (j : json) : string :=
  match j with
  | JNull => "null"
  | JBool _ => "bool"
  | JInt _ | JFloat _ => "number"
  | JString _ => "string"
  | JArray _ => "array"
  | JObject _ => "object"
  end.

(** [Unmarshal] keeps the first type error and goes on decoding. *)
Definition saveError (saved new : option error) : option error :=
  match saved with
  | Some _ => saved
  | None => new
  end.

(** Decoding a JSON value into a Go value that is already there: the new
    value and the error, if any. *)
Class Unmarshaler (T : Type) : Type :=
  unmarshal_value : json -> T -> T * option error.

(** The zero value of a Go type. *)
Class GoZero (T : Type) : Type := zero : T.

#[export] Instance zero_string : GoZero string := "".
#[export] Instance zero_int : GoZero Z := 0.
#[export] Instance zero_slice {T} : GoZero (list T) := [].

#[export] Instance unmarshal_string : Unmarshaler string := fun j cur =>
  match j with
  | JNull => (cur, None)
  | JString s => (s, None)
  | _ => (cur, Some (json_UnmarshalTypeError (json_kind j) "string"))
  end.

(** Go's [int] is 64 bits wide on the platforms the package is built for. *)
Definition fits_int (n : Z) : bool := (- 2 ^ 63 <=? n) && (n <? 2 ^ 63).

#[export] Instance unmarshal_int : Unmarshaler Z := fun j cur =>
  match j with
  | JNull => (cur, None)
  | JInt n =>
      if fits_int n then (n, None)
      else (cur, Some (json_UnmarshalTypeError "number" "int"))
  | _ => (cur, Some (json_UnmarshalTypeError (json_kind j) "int"))
  end.

(** ASCII case folding, as [Unmarshal] matches object keys with field names
    when no field has the exact name.  (Go also folds the two non-ASCII
    letters whose fold is ASCII; keys with them are not in any schema of the
    provider.) *)
Definition to_lower (c : ascii) : ascii :=
  let n := N_of_ascii c in
  if ((65 <=? n) && (n <=? 90))%N then ascii_of_N (n + 32) else c.

Fixpoint fold_name (s : string) : string :=
  match s with
  | EmptyString => EmptyString
  | String c rest => String (to_lower c) (fold_name rest)
  end.

Definition equalFold (s t : string) : bool :=
  String.eqb (fold_name s) (fold_name t).

(** A struct field with a [json] tag: its name and how a value is stored in it. *)
Definition field (T : Type) : Type := (string * (json -> T -> T * option error))%type.

Definition find_field {T} (fields : list (field T)) (key : string)
  : option (json -> T -> T * option error) :=
  match find (fun f => String.eqb (fst f) key) fields with
  | Some f => Some (snd f)
  | None =>
      match find (fun f => equalFold (fst f) key) fields with
      | Some f => Some (snd f)
      | None => None
      end
  end.

(** One member of an object: stored in its field, or skipped. *)
Definition store_member {T} (fields : list (field T))
    (acc : T * option error) (m : string * json) : T * option error :=
  match find_field fields (fst m) with
  | None => acc
  | Some store =>
      let '(v, e) := store (snd m) (fst acc) in (v, saveError (snd acc) e)
  end.

Definition unmarshal_struct {T} (tyname : string) (fields : list (field T))
  : Unmarshaler T := fun j cur =>
  match j with
  | JNull => (cur, None)
  | JObject members => fold_left (store_member fields) members (cur, None)
  | _ => (cur, Some (json_UnmarshalTypeError (json_kind j) tyname))
  end.

(** An array into a slice: element [i] is decoded into the element that is
    already at index [i], or into a zero value, and the slice ends with the
    array. *)
Fixpoint unmarshal_elems {T} `{Unmarshaler T} `{GoZero T}
    (js : list json) (cur : list T) : list T * option error :=
  match js with
  | [] => ([], None)
  | j :: js' =>
      let '(x, e) := unmarshal_value j (hd zero cur) in
      let '(xs, e') := unmarshal_elems js' (tl cur) in
      (x :: xs, saveError e e')
  end.

#[export] Instance unmarshal_slice {T} `{Unmarshaler T} `{GoZero T} (tyname : string)
  : Unmarshaler (list T) := fun j cur =>
  match j with
  | JNull => ([], None)
  | JArray js => unmarshal_elems js cur
  | _ => (cur, Some (json_UnmarshalTypeError (json_kind j) tyname))
  end.

(** ** The types of the package *)

Record translation : Type := {
  DetectedSourceLanguage : string;   (* json:"detected_source_language" *)
  Text : string                      (* json:"text" *)
}.

Record TranslateResponse : Type := {
  Translations : list translation    (* json:"translations" *)
}.

Record ErrorResponse : Type := {
  ErrMessage : string                (* json:"message" *)
}.

Record AccountStatus : Type := {
  CharacterCount : Z;                (* json:"character_count" *)
  CharacterLimit : Z                 (* json:"character_limit" *)
}.

#[export] Instance zero_translation : GoZero translation :=
  {| DetectedSourceLanguage := zero; Text := zero |}.
#[export] Instance zero_TranslateResponse : GoZero TranslateResponse :=
  {| Translations := zero |}.
#[export] Instance zero_ErrorResponse : GoZero ErrorResponse :=
  {| ErrMessage := zero |}.
#[export] Instance zero_AccountStatus : GoZero AccountStatus :=
  {| CharacterCount := zero; CharacterLimit := zero |}.

Definition translation_fields : list (field translation) :=
  [ ("detected_source_language", fun j t =>
       let '(s, e) := unmarshal_value j (DetectedSourceLanguage t) in
       ({| DetectedSourceLanguage := s; Text := Text t |}, e))
  ; ("text", fun j t =>
       let '(s, e) := unmarshal_value j (Text t) in
       ({| DetectedSourceLanguage := DetectedSourceLanguage t; Text := s |}, e)) ].

#[export] Instance unmarshal_translation : Unmarshaler translation :=
  unmarshal_struct "deepl.translation" translation_fields.

Definition TranslateResponse_fields : list (field TranslateResponse) :=
  [ ("translations", fun j r =>
       let '(l, e) := unmarshal_slice "[]deepl.translation" j (Translations r) in
       ({| Translations := l |}, e)) ].

#[export] Instance unmarshal_TranslateResponse : Unmarshaler TranslateResponse :=
  unmarshal_struct "deepl.TranslateResponse" TranslateResponse_fields.

Definition ErrorResponse_fields : list (field ErrorResponse) :=
  [ ("message", fun j r =>
       let '(s, e) := unmarshal_value j (ErrMessage r) in
       ({| ErrMessage := s |}, e)) ].

#[export] Instance unmarshal_ErrorResponse : Unmarshaler ErrorResponse :=
  unmarshal_struct "deepl.ErrorResponse" ErrorResponse_fields.

Definition AccountStatus_fields : list (field AccountStatus) :=
  [ ("character_count", fun j r =>
       let '(n, e) := unmarshal_value j (CharacterCount r) in
       ({| CharacterCount := n; CharacterLimit := CharacterLimit r |}, e))
  ; ("character_limit", fun j r =>
       let '(n, e) := unmarshal_value j (CharacterLimit r) in
       ({| CharacterCount := CharacterCount r; CharacterLimit := n |}, e)) ].

#[export] Instance unmarshal_AccountStatus : Unmarshaler AccountStatus :=
  unmarshal_struct "deepl.AccountStatus" AccountStatus_fields.

(** ** [net/url], [net/http], [log], [io]: the data the package handles *)

(** [url.URL]: the two fields the package writes and the two that locate the
    server. *)
Record URL : Type := {
  Scheme : string;
  Host : string;
  Path : string;
  RawQuery : string
}.

(** [url.Values] and [http.Header] are both [map[string][]string]. *)
Abbreviation Values := (gmap string (list string)).

(** [v[key] = append(v[key], value)] *)
Definition Values_Add (key value : string) (v : Values) : Values :=
  <[key := (default [] (v !! key) ++ [value])%list]> v.

(** [Header.Set]; the one key the package sets is in canonical form already. *)
Definition Header_Set (key value : string) (h : Values) : Values :=
  <[key := [value]]> h.

Inductive Context : Type :=
| context_Background
| context_WithCancel (id : nat).

Record Request : Type := {
  Method : string;
  ReqURL : URL;
  Header : Values;
  ctx : Context
}.

Definition WithContext (c : Context) (req : Request) : Request :=
  {| Method := Method req; ReqURL := ReqURL req; Header := Header req; ctx := c |}.

(** A response body: the bytes that can be read from it, and the error that
    ends the reading when it is not the end of the stream. *)
Record ReadCloser : Type := {
  content : list byte;
  failure : option error
}.

Definition ioutil_ReadAll (r : ReadCloser) : list byte * option error :=
  (content r, failure r).

Record Response : Type := {
  StatusCode : Z;
  Body : ReadCloser
}.

(** What the process does to the world outside, in order. *)
Inductive event : Type :=
| ev_NewRequest (method url : string)
| ev_Do (req : Request)
| ev_Close (body : ReadCloser).

(** [http.Client]: its answer to a request may depend on what happened
    before. *)
Record http_Client : Type := {
  Transport : list event -> Request -> Response + error
}.

Inductive Writer : Type := os_Stderr | os_Stdout.

Record log_Logger : Type := {
  out : Writer;
  prefix : string;
  flag : Z
}.

Definition log_LstdFlags : Z := 3.

Definition log_New (w : Writer) (p : string) (f : Z) : log_Logger :=
  {| out := w; prefix := p; flag := f |}.

(** Pointers are locations of a heap. *)
Abbreviation loc := positive.

Record Client : Type := {
  BaseURL : loc;                     (* *url.URL *)
  HTTPClient : option http_Client;   (* *http.Client, None when nil *)
  Logger : option log_Logger         (* *log.Logger, None when nil *)
}.

Definition http_StatusOK : Z := 200.
Definition http_StatusBadRequest : Z := 400.
Definition http_StatusForbidden : Z := 403.
Definition http_StatusNotFound : Z := 404.
Definition http_StatusRequestEntityTooLarge : Z := 413.
Definition http_StatusTooManyRequests : Z := 429.
Definition http_StatusServiceUnavailable : Z := 503.
Definition http_MethodPost : string := "POST".

(** ** The text functions of the standard library *)

Class GoRuntime : Type := {
  (** the scanner of [encoding/json]: the value a text denotes, [None] when
      the text is not valid JSON *)
  json_scan : list byte -> option json;
  (** [url.Parse] *)
  url_Parse : string -> URL + error;
  (** the [String] method of a URL *)
  URL_String : URL -> string;
  (** [path.Join] *)
  path_Join : list string -> string;
  (** [url.ParseQuery] without its error, as the [Query] method calls it *)
  url_ParseQuery : string -> Values;
  (** [Values.Encode] *)
  Values_Encode : Values -> string;
  (** [http.DefaultClient] *)
  http_DefaultClient : http_Client
}.

(** ** The state of the process and the monad of its actions *)

Record State : Type := {
  environ : gmap string string;   (* the environment variables *)
  clients : gmap loc Client;      (* the Client objects *)
  urls : gmap loc URL;            (* the url.URL objects *)
  trace : list event              (* what has been done so far, oldest first *)
}.

(** An action returns a value and a new state, or panics ([None]): the only
    panic of the package is the dereference of a nil or dangling pointer. *)
Definition M (A : Type) : Type := State -> option (A * State).

#[export] Instance M_ret : MRet M := fun A a σ => Some (a, σ).
#[export] Instance M_bind : MBind M := fun A B k m σ =>
  match m σ with
  | Some (a, σ') => k a σ'
  | None => None
  end.

Definition panic {A} : M A := fun _ => None.

Definition load_Client (c : loc) : M Client := fun σ =>
  match clients σ !! c with
  | Some cl => Some (cl, σ)
  | None => None
  end.

Definition load_URL (p : loc) : M URL := fun σ =>
  match urls σ !! p with
  | Some u => Some (u, σ)
  | None => None
  end.

Definition alloc_URL (u : URL) : M loc := fun σ =>
  let p := fresh (dom (urls σ)) in
  Some (p, {| environ := environ σ; clients := clients σ;
              urls := <[p := u]> (urls σ); trace := trace σ |}).

Definition alloc_Client (cl : Client) : M loc := fun σ =>
  let p := fresh (dom (clients σ)) in
  Some (p, {| environ := environ σ; clients := <[p := cl]> (clients σ);
              urls := urls σ; trace := trace σ |}).

Definition emit (e : event) : M unit := fun σ =>
  Some (tt, {| environ := environ σ; clients := clients σ;
               urls := urls σ; trace := (trace σ ++ [e])%list |}).

Definition os_LookupEnv (key : string) : M (string * bool) := fun σ =>
  match environ σ !! key with
  | Some val => Some ((val, true), σ)
  | None => Some (("", false), σ)
  end.

Definition os_Getenv (key : string) : M string := fun σ =>
  Some (default "" (environ σ !! key), σ).

(** [c.Do(req)]: the transport answers, and the request is on the trace. *)
Definition Do (c : option http_Client) (req : Request) : M (Response + error) :=
  match c with
  | None => panic
  | Some hc => fun σ =>
      match emit (ev_Do req) σ with
      | Some (_, σ') => Some (Transport hc (trace σ) req, σ')
      | None => None
      end
  end.

Definition Close (b : ReadCloser) : M unit := emit (ev_Close b).

Definition set_Path (p : string) (u : URL) : URL :=
  {| Scheme := Scheme u; Host := Host u; Path := p; RawQuery := RawQuery u |}.

Definition set_RawQuery (q : string) (u : URL) : URL :=
  {| Scheme := Scheme u; Host := Host u; Path := Path u; RawQuery := q |}.

Section Package.
Context `{GoRuntime}.

(** [json.Unmarshal(data, v)]: the text is checked first, and nothing is
    stored when it is not valid JSON. *)
Definition json_Unmarshal {T} `{Unmarshaler T} (data : list byte) (v : T)
  : T * option error :=
  match json_scan data with
  | None => (v, Some json_SyntaxError)
  | Some j => unmarshal_value j v
  end.

(** [http.NewRequest] with a nil body: the URL is parsed again.  The method
    of every call of the package is valid. *)
Definition http_NewRequest (method url : string) : M (Request + error) :=
  _ ← emit (ev_NewRequest method url);
  mret (match url_Parse url with
        | inl u => inl {| Method := method; ReqURL := u; Header := ∅;
                          ctx := context_Background |}
        | inr err => inr err
        end).

Definition URL_Query (u : URL) : Values := url_ParseQuery (RawQuery u).

(** *** deepl.go *)

Definition New (rawBaseURL : string) (logger : option log_Logger)
  : M (option loc * option error) :=
  match url_Parse rawBaseURL with
  | inr err => mret (None, Some (xerrors_Errorf "Failed to parse URL" no_args))
  | inl baseURL =>
      baseURL ← alloc_URL baseURL;
      let logger :=
        match logger with
        | None => Some (log_New os_Stderr "[Log]" log_LstdFlags)
        | Some l => Some l
        end in
      c ← alloc_Client {| BaseURL := baseURL;
                          HTTPClient := Some http_DefaultClient;
                          Logger := logger |};
      mret (Some c, None)
  end.

Definition getAPIKey : M (string * option error) :=
  '(val, ok) ← os_LookupEnv "DEEPL_API_KEY";
  if negb ok then mret ("", Some (xerrors_New "Not set API key environment"))
  else if String.eqb val "" then mret ("", Some (xerrors_New "DEEPL_API_KEY is empty"))
  else
    apiKey ← os_Getenv "DEEPL_API_KEY";
    mret (apiKey, None).

Definition decodeBody {T} `{Unmarshaler T} (bodyBytes : list byte) (outStruct : T)
  : T * option error :=
  json_Unmarshal bodyBytes outStruct.

(** The switch of [responseParse] on a status that is not 200. *)
Definition status_error (StatusCode : Z) (errMessage : string) : error :=
  if StatusCode =? http_StatusBadRequest then
    xerrors_Errorf
      "Bad request. Please check error message and your parameters. Error message is %s"
      (arg_s errMessage)
  else if StatusCode =? http_StatusForbidden then
    xerrors_New "Authorization failed. Please supply a valid auth_key parameter."
  else if StatusCode =? http_StatusNotFound then
    xerrors_New "The requested resource clould not be found."
  else if StatusCode =? http_StatusRequestEntityTooLarge then
    xerrors_New "The request size exceeds the limit."
  else if StatusCode =? http_StatusTooManyRequests then
    xerrors_New "Too many requests. Please wait and resend your request."
  else if StatusCode =? 456 then
    xerrors_New "Quota exceeded. The character limit has been reached."
  else if StatusCode =? http_StatusServiceUnavailable then
    xerrors_New "Resource currently unavailable. Try again later."
  else if 500 <=? StatusCode then xerrors_New "Internal error"
  else xerrors_New "Unexpected error".

(** [outStruct] is the struct the caller's pointer leads to; the result is
    that struct after the call, and the error. *)
Definition responseParse {T} `{Unmarshaler T} (resp : Response) (outStruct : T)
  : T * option error :=
  let '(bodyBytes, err) := ioutil_ReadAll (Body resp) in
  match err with
  | Some err =>
      (outStruct, Some (xerrors_Errorf "Failed to read response: %w" (arg_w err)))
  | None =>
      let errResp : ErrorResponse := zero in
      let errMessage : string + error :=
        if negb (StatusCode resp =? http_StatusOK) && negb (length bodyBytes =? 0)%nat
        then
          let '(errResp, err) := decodeBody bodyBytes errResp in
          match err with
          | Some err =>
              inr (xerrors_Errorf "Failed to decode error response: %w" (arg_w err))
          | None => inl (ErrMessage errResp)
          end
        else inl zero in
      match errMessage with
      | inr err => (outStruct, Some err)
      | inl errMessage =>
          if StatusCode resp =? http_StatusOK then
            let '(outStruct, err) := decodeBody bodyBytes outStruct in
            match err with
            | Some err =>
                (outStruct, Some (xerrors_Errorf "Failed to parse Json: %w" (arg_w err)))
            | None => (outStruct, None)
            end
          else (outStruct, Some (status_error (StatusCode resp) errMessage))
      end
  end.

Definition set_Header (key value : string) (req : Request) : Request :=
  {| Method := Method req; ReqURL := ReqURL req;
     Header := Header_Set key value (Header req); ctx := ctx req |}.

Definition GetAccountStatus (c : loc) (ctx : Context)
  : M (option AccountStatus * option error) :=
  let accountStatusResp : AccountStatus := zero in
  cl ← load_Client c;
  reqURL ← load_URL (BaseURL cl);
  (* Set path *)
  let reqURL := set_Path (path_Join [Path reqURL; "v2"; "usage"]) reqURL in
  let q := URL_Query reqURL in
  '(apiKey, err) ← getAPIKey;
  match err with
  | Some err => mret (None, Some err)
  | None =>
      let q := Values_Add "auth_key" apiKey q in
      let reqURL := set_RawQuery (Values_Encode q) reqURL in
      (* make new request *)
      r ← http_NewRequest http_MethodPost (URL_String reqURL);
      match r with
      | inr err =>
          mret (None, Some (xerrors_Errorf "Failed to create request: %w" (arg_w err)))
      | inl req =>
          (* set header *)
          let req := set_Header "User-Agent" "Deepl-Go-Client" req in
          (* set context *)
          let req := WithContext ctx req in
          r ← Do (HTTPClient cl) req;
          match r with
          | inr err =>
              mret (None, Some (xerrors_Errorf "Failed to send http request: %w" (arg_w err)))
          | inl resp =>
              let '(accountStatusResp, err) := responseParse resp accountStatusResp in
              _ ← Close (Body resp);
              match err with
              | Some err => mret (None, Some err)
              | None => mret (Some accountStatusResp, None)
              end
          end
      end
  end.

Definition TranslateSentence (c : loc) (ctx : Context)
    (text sourceLang targetLang : string)
  : M (option TranslateResponse * option error) :=
  let transResp : TranslateResponse := zero in
  cl ← load_Client c;
  reqURL ← load_URL (BaseURL cl);
  (* Set path *)
  let reqURL := set_Path (path_Join [Path reqURL; "v2"; "translate"]) reqURL in
  let q := URL_Query reqURL in
  '(apiKey, err) ← getAPIKey;
  match err with
  | Some err => mret (None, Some err)
  | None =>
      let q := Values_Add "auth_key" apiKey q in
      let q := Values_Add "text" text q in
      let q := Values_Add "target_lang" targetLang q in
      let q := Values_Add "source_lang" sourceLang q in
      let reqURL := set_RawQuery (Values_Encode q) reqURL in
      (* make new request *)
      r ← http_NewRequest http_MethodPost (URL_String reqURL);
      match r with
      | inr err =>
          mret (None, Some (xerrors_Errorf "Failed to create request: %w" (arg_w err)))
      | inl req =>
          (* set header *)
          let req := set_Header "User-Agent" "Deepl-Go-Client" req in
          (* set context *)
          let req := WithContext ctx req in
          r ← Do (HTTPClient cl) req;
          match r with
          | inr err =>
              mret (None, Some (xerrors_Errorf "Failed to send http request: %w" (arg_w err)))
          | inl resp =>
              let '(transResp, err) := responseParse resp transResp in
              _ ← Close (Body resp);
              match err with
              | Some err => mret (None, Some err)
              | None => mret (Some transResp, None)
              end
          end
      end
  end.

End Package.

(** ** The older variant of the package

    The repository has a second file of package [deepl] with [New], the
    response types and a [TranslateSentence] that reads the credential and
    classifies the response in line.  It differs from [deepl.go] in what it
    returns next to an error. *)
Module Older.
Section Package.
Context `{GoRuntime}.

Definition decodeBody {T} `{Unmarshaler T} (bodyBytes : list byte) (outStruct : T)
  : T * option error :=
  let '(outStruct, err) := json_Unmarshal bodyBytes outStruct in
  match err with
  | Some err => (outStruct, Some (xerrors_Errorf "Failed to parse Json: %w" (arg_w err)))
  | None => (outStruct, None)
  end.

Definition TranslateSentence (c : loc) (ctx : Context)
    (text sourceLang targetLang : string)
  : M (option TranslateResponse * option error) :=
  let transResp : TranslateResponse := zero in
  let errResp : ErrorResponse := zero in
  cl ← load_Client c;
  reqURL ← load_URL (BaseURL cl);
  (* Set path *)
  let reqURL := set_Path (path_Join [Path reqURL; "v2"; "translate"]) reqURL in
  let q := URL_Query reqURL in
  (* need to parepare setting API key in env *)
  '(val, ok) ← os_LookupEnv "DEEPL_API_KEY";
  if negb ok then
    mret (Some transResp, Some (xerrors_Errorf "Not set API key environment" no_args))
  else if String.eqb val "" then
    mret (Some transResp, Some (xerrors_Errorf "DEEPL_API_KEY is empty" no_args))
  else
    apiKey ← os_Getenv "DEEPL_API_KEY";
    let q := Values_Add "auth_key" apiKey q in
    let q := Values_Add "text" text q in
    let q := Values_Add "target_lang" targetLang q in
    let q := Values_Add "source_lang" sourceLang q in
    let reqURL := set_RawQuery (Values_Encode q) reqURL in
    (* make new request *)
    r ← http_NewRequest http_MethodPost (URL_String reqURL);
    match r with
    | inr err =>
        mret (Some transResp,
              Some (xerrors_Errorf "Failed to create request: %w" (arg_w err)))
    | inl req =>
        (* set header *)
        let req := set_Header "User-Agent" "Deepl-Go-Client" req in
        (* set context *)
        let req := WithContext ctx req in
        r ← Do (HTTPClient cl) req;
        match r with
        | inr err =>
            mret (Some transResp,
                  Some (xerrors_Errorf "Failed to send http request: %w" (arg_w err)))
        | inl resp =>
            res ←
              (let '(bodyBytes, err) := ioutil_ReadAll (Body resp) in
               match err with
               | Some err =>
                   mret (Some transResp,
                         Some (xerrors_Errorf "Failed to read response: %w" (arg_w err)))
               | None =>
                   (* http response failed and received to error message in json *)
                   let errMessage : string + error :=
                     if negb (StatusCode resp =? http_StatusOK)
                        && negb (length bodyBytes =? 0)%nat
                     then
                       let '(errResp, err) := decodeBody bodyBytes errResp in
                       match err with
                       | Some err =>
                           inr (xerrors_Errorf "Failed to decode error response: %w"
                                  (arg_w err))
                       | None => inl (ErrMessage errResp)
                       end
                     else inl zero in
                   match errMessage with
                   | inr err => mret (Some transResp, Some err)
                   | inl errMessage =>
                       if StatusCode resp =? http_StatusOK then
                         let '(transResp, err) := decodeBody bodyBytes transResp in
                         match err with
                         | Some err => mret (Some transResp, Some err)
                         | None => mret (Some transResp, None)
                         end
                       else
                         mret (Some transResp,
                               Some (status_error (StatusCode resp) errMessage))
                   end
               end);
            _ ← Close (Body resp);
            mret res
        end
    end.

End Package.
End Older.

(** ** A reference implementation of the text functions

    Enough of the standard library to run the package on the inputs of its
    tests.  The scanner does not check that strings are valid UTF-8 and does
    not join surrogate pairs; the URL parser knows [scheme://host/path?query]
    only. *)
Module Std.

Definition code (c : ascii) : N := N_of_ascii c.

Definition is_space (c : ascii) : bool :=
  let n := code c in ((n =? 32) || (n =? 9) || (n =? 10) || (n =? 13))%N.

Definition is_digit (c : ascii) : bool :=
  let n := code c in ((48 <=? n) && (n <=? 57))%N.

Fixpoint skip_space (s : string) : string :=
  match s with
  | String c rest => if is_space c then skip_space rest else s
  | EmptyString => s
  end.

(** [expect w s]: [s] without its prefix [w]. *)
Fixpoint expect (w s : string) : option string :=
  match w, s with
  | EmptyString, _ => Some s
  | String a w', String b s' => if Ascii.eqb a b then expect w' s' else None
  | String _ _, EmptyString => None
  end.

Definition hex_value (c : ascii) : option N :=
  let n := code c in
  if ((48 <=? n) && (n <=? 57))%N then Some (n - 48)%N
  else if ((97 <=? n) && (n <=? 102))%N then Some (n - 87)%N
  else if ((65 <=? n) && (n <=? 70))%N then Some (n - 55)%N
  else None.

Definition chr (n : N) : ascii := ascii_of_N n.

(** UTF-8 of a code point of the basic plane. *)
Definition utf8 (r : N) : string :=
  (if r <? 128 then String (chr r) EmptyString
   else if r <? 2048 then
     String (chr (192 + r / 64)) (String (chr (128 + r mod 64)) EmptyString)
   else
     String (chr (224 + r / 4096))
       (String (chr (128 + (r / 64) mod 64))
          (String (chr (128 + r mod 64)) EmptyString)))%N.

Definition unescape (c : ascii) : option ascii :=
  let n := code c in
  if (n =? 34)%N then Some (chr 34)          (* quote *)
  else if (n =? 92)%N then Some (chr 92)     (* backslash *)
  else if (n =? 47)%N then Some (chr 47)     (* slash *)
  else if (n =? 98)%N then Some (chr 8)
  else if (n =? 102)%N then Some (chr 12)
  else if (n =? 110)%N then Some (chr 10)
  else if (n =? 114)%N then Some (chr 13)
  else if (n =? 116)%N then Some (chr 9)
  else None.

(** The rest of a string literal, after its opening quote. *)
Fixpoint scan_string (s : string) : option (string * string) :=
  match s with
  | EmptyString => None
  | String c rest =>
      let n := code c in
      if (n =? 34)%N then Some (EmptyString, rest)
      else if (n <? 32)%N then None
      else if (n =? 92)%N then
        match rest with
        | String e rest' =>
            if (code e =? 117)%N then
              match rest' with
              | String h1 (String h2 (String h3 (String h4 rest''))) =>
                  match hex_value h1, hex_value h2, hex_value h3, hex_value h4 with
                  | Some a, Some b, Some c', Some d =>
                      let r := (((a * 16 + b) * 16 + c') * 16 + d)%N in
                      if ((55296 <=? r) && (r <=? 57343))%N then None
                      else
                        match scan_string rest'' with
                        | Some (str, k) => Some (utf8 r +:+ str, k)
                        | None => None
                        end
                  | _, _, _, _ => None
                  end
              | _ => None
              end
            else
              match unescape e with
              | Some x =>
                  match scan_string rest' with
                  | Some (str, k) => Some (String x str, k)
                  | None => None
                  end
              | None => None
              end
        | EmptyString => None
        end
      else
        match scan_string rest with
        | Some (str, k) => Some (String c str, k)
        | None => None
        end
  end.

Fixpoint span_digits (s : string) : string * string :=
  match s with
  | String c rest =>
      if is_digit c then let '(ds, k) := span_digits rest in (String c ds, k)
      else (EmptyString, s)
  | EmptyString => (EmptyString, s)
  end.

Fixpoint digits_value (acc : Z) (ds : string) : Z :=
  match ds with
  | String c rest => digits_value (10 * acc + Z.of_N (code c - 48)) rest
  | EmptyString => acc
  end.

Definition starts_with (n : N) (s : string) : bool :=
  match s with
  | String c _ => (code c =? n)%N
  | EmptyString => false
  end.

Definition tail (s : string) : string :=
  match s with
  | String _ rest => rest
  | EmptyString => s
  end.

(** The fraction of a number: [Some] of what follows it, or of the input
    when there is none; [None] when a digit is missing. *)
Definition scan_fraction (s : string) : option string :=
  if starts_with 46 s then
    let '(fs, k) := span_digits (tail s) in
    if String.eqb fs "" then None else Some k
  else Some s.

Definition scan_exponent (s : string) : option string :=
  if starts_with 101 s || starts_with 69 s then
    let s1 := tail s in
    let s2 := if starts_with 43 s1 || starts_with 45 s1 then tail s1 else s1 in
    let '(es, k) := span_digits s2 in
    if String.eqb es "" then None else Some k
  else Some s.

Definition scan_number (s : string) : option (json * string) :=
  let neg := starts_with 45 s in
  let s1 := if neg then tail s else s in
  let '(ds, s2) := span_digits s1 in
  if String.eqb ds "" then None
  else if starts_with 48 ds && negb (String.eqb ds "0") then None
  else
    match scan_fraction s2 with
    | None => None
    | Some s3 =>
        match scan_exponent s3 with
        | None => None
        | Some s4 =>
            if (String.length s4 =? String.length s2)%nat then
              let n := digits_value 0 ds in
              Some (JInt (if neg then - n else n), s4)
            else
              Some (JFloat (substring 0 (String.length s - String.length s4) s), s4)
        end
    end.

Fixpoint scan_value (fuel : nat) (s : string) : option (json * string) :=
  match fuel with
  | O => None
  | S fuel =>
      let s := skip_space s in
      if starts_with 34 s then
        match scan_string (tail s) with
        | Some (str, k) => Some (JString str, k)
        | None => None
        end
      else if starts_with 91 s then           (* [ *)
        let k := skip_space (tail s) in
        if starts_with 93 k then Some (JArray [], tail k)
        else
          match scan_elems fuel k with
          | Some (l, k') => Some (JArray l, k')
          | None => None
          end
      else if starts_with 123 s then          (* { *)
        let k := skip_space (tail s) in
        if starts_with 125 k then Some (JObject [], tail k)
        else
          match scan_members fuel k with
          | Some (l, k') => Some (JObject l, k')
          | None => None
          end
      else if starts_with 110 s then
        match expect "null" s with Some k => Some (JNull, k) | None => None end
      else if starts_with 116 s then
        match expect "true" s with Some k => Some (JBool true, k) | None => None end
      else if starts_with 102 s then
        match expect "false" s with Some k => Some (JBool false, k) | None => None end
      else scan_number s
  end
with scan_elems (fuel : nat) (s : string) : option (list json * string) :=
  match fuel with
  | O => None
  | S fuel =>
      match scan_value fuel s with
      | None => None
      | Some (j, k) =>
          let k := skip_space k in
          if starts_with 93 k then Some ([j], tail k)
          else if starts_with 44 k then
            match scan_elems fuel (tail k) with
            | Some (l, k') => Some (j :: l, k')
            | None => None
            end
          else None
      end
  end
with scan_members (fuel : nat) (s : string) : option (list (string * json) * string) :=
  match fuel with
  | O => None
  | S fuel =>
      let s := skip_space s in
      if starts_with 34 s then
        match scan_string (tail s) with
        | None => None
        | Some (key, k) =>
            let k := skip_space k in
            if starts_with 58 k then
              match scan_value fuel (tail k) with
              | None => None
              | Some (j, k) =>
                  let k := skip_space k in
                  if starts_with 125 k then Some ([(key, j)], tail k)
                  else if starts_with 44 k then
                    match scan_members fuel (tail k) with
                    | Some (l, k') => Some ((key, j) :: l, k')
                    | None => None
                    end
                  else None
              end
            else None
        end
      else None
  end.

Definition scan (data : list byte) : option json :=
  let s := string_of_list_byte data in
  match scan_value (S (String.length s)) s with
  | Some (j, k) => if String.eqb (skip_space k) "" then Some j else None
  | None => None
  end.

(** A JSON text written with ['] for the double quote. *)
Fixpoint requote (s : string) : string :=
  match s with
  | String c rest => String (if (code c =? 39)%N then chr 34 else c) (requote rest)
  | EmptyString => EmptyString
  end.

Definition text (s : string) : list byte := list_byte_of_string (requote s).

(** [strings.Cut] and [strings.Split] on a separator of one byte. *)
Fixpoint cut (n : N) (s : string) : option (string * string) :=
  match s with
  | EmptyString => None
  | String c rest =>
      if (code c =? n)%N then Some (EmptyString, rest)
      else
        match cut n rest with
        | Some (a, b) => Some (String c a, b)
        | None => None
        end
  end.

Fixpoint split (n : N) (s : string) : list string :=
  match s with
  | EmptyString => [EmptyString]
  | String c rest =>
      if (code c =? n)%N then EmptyString :: split n rest
      else
        match split n rest with
        | a :: l => String c a :: l
        | [] => [String c EmptyString]
        end
  end.

Definition cut_or (n : N) (s : string) : string * string :=
  match cut n s with
  | Some p => p
  | None => (s, EmptyString)
  end.

(** [url.QueryUnescape] *)
Fixpoint QueryUnescape (s : string) : option string :=
  match s with
  | EmptyString => Some EmptyString
  | String c rest =>
      if (code c =? 37)%N then
        match rest with
        | String h1 (String h2 rest') =>
            match hex_value h1, hex_value h2, QueryUnescape rest' with
            | Some a, Some b, Some k => Some (String (chr (a * 16 + b)) k)
            | _, _, _ => None
            end
        | _ => None
        end
      else
        match QueryUnescape rest with
        | Some k => Some (String (if (code c =? 43)%N then chr 32 else c) k)
        | None => None
        end
  end.

Definition unreserved (c : ascii) : bool :=
  let n := code c in
  (((48 <=? n) && (n <=? 57)) || ((65 <=? n) && (n <=? 90))
   || ((97 <=? n) && (n <=? 122))
   || (n =? 45) || (n =? 95) || (n =? 46) || (n =? 126))%N.

Definition hex_digit (n : N) : ascii :=
  if (n <? 10)%N then chr (48 + n) else chr (55 + n).

(** [url.QueryEscape] *)
Fixpoint QueryEscape (s : string) : string :=
  match s with
  | EmptyString => EmptyString
  | String c rest =>
      let n := code c in
      if unreserved c then String c (QueryEscape rest)
      else if (n =? 32)%N then String (chr 43) (QueryEscape rest)
      else String (chr 37) (String (hex_digit (n / 16)) (String (hex_digit (n mod 16))
             (QueryEscape rest)))
  end.

Definition contains (n : N) (s : string) : bool :=
  match cut n s with Some _ => true | None => false end.

Definition parse_pair (m : Values) (pair : string) : Values :=
  if contains 59 pair then m
  else if String.eqb pair "" then m
  else
    let '(key, value) := cut_or 61 pair in
    match QueryUnescape key, QueryUnescape value with
    | Some key, Some value => Values_Add key value m
    | _, _ => m
    end.

Definition ParseQuery (query : string) : Values :=
  fold_left parse_pair (split 38 query) ∅.

Definition key_le (a b : string * list string) : Prop :=
  String.leb (fst a) (fst b) = true.

#[local] Instance key_le_dec a b : Decision (key_le a b) :=
  decide (String.leb (fst a) (fst b) = true).

Definition encode_key (kv : string * list string) : list string :=
  map (fun v => QueryEscape (fst kv) +:+ "=" +:+ QueryEscape v) (snd kv).

Definition Encode (v : Values) : string :=
  String.concat "&" (concat (map encode_key (merge_sort key_le (map_to_list v)))).

(** [path.Clean] on the elements of a path, last kept element first. *)
Definition clean_step (rooted : bool) (kept : list string) (elem : string)
  : list string :=
  if String.eqb elem "" || String.eqb elem "." then kept
  else if String.eqb elem ".." then
    match kept with
    | top :: rest => if String.eqb top ".." then elem :: kept else rest
    | [] => if rooted then [] else [elem]
    end
  else elem :: kept.

Definition Clean (p : string) : string :=
  if String.eqb p "" then "."
  else
    let rooted := starts_with 47 p in
    let kept := rev (fold_left (clean_step rooted) (split 47 p) []) in
    let body := String.concat "/" kept in
    if rooted then "/" +:+ body
    else if String.eqb body "" then "." else body.

Definition Join (elem : list string) : string :=
  let parts := filter (fun e => e ≠ EmptyString) elem in
  match parts with
  | [] => EmptyString
  | _ => Clean (String.concat "/" parts)
  end.

Definition has_control (s : string) : bool :=
  existsb (fun c => (code c <? 32)%N || (code c =? 127)%N) (list_ascii_of_string s).

Definition Parse (rawURL : string) : URL + error :=
  if has_control rawURL then
    inr (foreign_error "parse: net/url: invalid control character in URL")
  else
    let '(u, _) := cut_or 35 rawURL in
    let '(rest, query) := cut_or 63 u in
    if starts_with 58 rest then inr (foreign_error "parse: missing protocol scheme")
    else
      match cut 58 rest with
      | Some (scheme, after) =>
          match expect "//" after with
          | Some authority =>
              let '(host, p) :=
                match cut 47 authority with
                | Some (h, p) => (h, "/" +:+ p)
                | None => (authority, EmptyString)
                end in
              inl {| Scheme := scheme; Host := host; Path := p; RawQuery := query |}
          | None =>
              inl {| Scheme := ""; Host := ""; Path := rest; RawQuery := query |}
          end
      | None => inl {| Scheme := ""; Host := ""; Path := rest; RawQuery := query |}
      end.

Definition URLString (u : URL) : string :=
  (if String.eqb (Scheme u) "" then "" else Scheme u +:+ ":")
  +:+ (if negb (String.eqb (Scheme u) "") || negb (String.eqb (Host u) "") then
         if negb (String.eqb (Host u) "") || negb (String.eqb (Path u) "")
         then "//" else ""
       else "")
  +:+ Host u
  +:+ (if negb (String.eqb (Path u) "") && negb (starts_with 47 (Path u))
          && negb (String.eqb (Host u) "")
       then "/" else "")
  +:+ Path u
  +:+ (if String.eqb (RawQuery u) "" then "" else "?" +:+ RawQuery u).

(** A client without a network: every request fails to connect. *)
Definition offline : http_Client :=
  {| Transport := fun _ _ => inr (foreign_error "dial tcp: connection refused") |}.

End Std.

Definition std : GoRuntime :=
  {| json_scan := Std.scan;
     url_Parse := Std.Parse;
     URL_String := Std.URLString;
     path_Join := Std.Join;
     url_ParseQuery := Std.ParseQuery;
     Values_Encode := Std.Encode;
     http_DefaultClient := Std.offline |}.

(** ** The table of the specification

    Section 4.4 of the specification gives the outcome of a response as a
    table that is read from the top.  It is written here row by row, next to
    the switch of [responseParse] it is compared with. *)
Inductive Outcome : Type :=
| decode_success_body
| bad_request
| authorization_failed
| resource_not_found
| request_too_large
| too_many_requests
| quota_exceeded
| resource_unavailable
| internal_error
| unexpected_error.

Definition spec_rows : list ((Z -> bool) * Outcome) :=
  [ (Z.eqb 200, decode_success_body)
  ; (Z.eqb 400, bad_request)
  ; (Z.eqb 403, authorization_failed)
  ; (Z.eqb 404, resource_not_found)
  ; (Z.eqb 413, request_too_large)
  ; (Z.eqb 429, too_many_requests)
  ; (Z.eqb 456, quota_exceeded)
  ; (Z.eqb 503, resource_unavailable)
  ; (Z.leb 500, internal_error)
  ; (fun status => negb (status =? 200), unexpected_error) ].

Definition spec_table (status : Z) : Outcome :=
  match find (fun row => fst row status) spec_rows with
  | Some row => snd row
  | None => unexpected_error
  end.

(** The error the package has for an outcome; [provider_message] is the
    message of the provider, for the one outcome that includes it. *)
Definition outcome_error (o : Outcome) (provider_message : string) : option error :=
  match o with
  | decode_success_body => None
  | bad_request =>
      Some (xerrors_Errorf
              "Bad request. Please check error message and your parameters. Error message is %s"
              (arg_s provider_message))
  | authorization_failed =>
      Some (xerrors_New "Authorization failed. Please supply a valid auth_key parameter.")
  | resource_not_found =>
      Some (xerrors_New "The requested resource clould not be found.")
  | request_too_large =>
      Some (xerrors_New "The request size exceeds the limit.")
  | too_many_requests =>
      Some (xerrors_New "Too many requests. Please wait and resend your request.")
  | quota_exceeded =>
      Some (xerrors_New "Quota exceeded. The character limit has been reached.")
  | resource_unavailable =>
      Some (xerrors_New "Resource currently unavailable. Try again later.")
  | internal_error => Some (xerrors_New "Internal error")
  | unexpected_error => Some (xerrors_New "Unexpected error")
  end.

(** The JSON texts of section 6 of the specification, as values. *)
Definition translation_json (t : translation) : json :=
  JObject [ ("detected_source_language", JString (DetectedSourceLanguage t))
          ; ("text", JString (Text t)) ].

Definition TranslateResponse_json (ts : list translation) : json :=
  JObject [ ("translations", JArray (map translation_json ts)) ].

Definition ErrorResponse_json (message : string) : json :=
  JObject [ ("message", JString message) ].

(** ** Names for what the calls build *)

Definition credential : string := "DEEPL_API_KEY".

(** The state with more events on its trace. *)
Definition after (σ : State) (evs : list event) : State :=
  {| environ := environ σ; clients := clients σ; urls := urls σ;
     trace := (trace σ ++ evs)%list |}.

(** The request a call hands to the client, from the URL that
    [http.NewRequest] parsed. *)
Definition outgoing (c : Context) (u : URL) : Request :=
  {| Method := http_MethodPost; ReqURL := u;
     Header := {[ "User-Agent" := ["Deepl-Go-Client"] ]}; ctx := c |}.

(** What a call returns once [responseParse] has run. *)
Definition returned {T} (r : T * option error) : option T * option error :=
  match snd r with
  | Some err => (None, Some err)
  | None => (Some (fst r), None)
  end.

Section Built.
Context `{GoRuntime}.

Definition translate_query (base : Values) (apiKey text sourceLang targetLang : string)
  : Values :=
  Values_Add "source_lang" sourceLang
    (Values_Add "target_lang" targetLang
       (Values_Add "text" text (Values_Add "auth_key" apiKey base))).

Definition usage_query (base : Values) (apiKey : string) : Values :=
  Values_Add "auth_key" apiKey base.

(** The URL of a request: the base URL with the path of the endpoint joined
    to its path and the query [q] encoded. *)
Definition endpoint_URL (base : URL) (endpoint : string) (q : Values) : URL :=
  {| Scheme := Scheme base; Host := Host base;
     Path := path_Join [Path base; "v2"; endpoint];
     RawQuery := Values_Encode q |}.

(** The message [responseParse] takes from the body of a response that is
    not a success. *)
Definition provider_message (bodyBytes : list byte) : string :=
  match bodyBytes with
  | [] => ""
  | _ => ErrMessage (fst (decodeBody bodyBytes (zero : ErrorResponse)))
  end.

(** A request carries the credential: its URL is read from the text of a URL
    whose query encodes parameters whose last [auth_key] is the credential. *)
Definition carries_credential (apiKey : string) (req : Request) : Prop :=
  ∃ (u : URL) (q : Values),
    last (default [] (q !! "auth_key")) = Some apiKey
    ∧ RawQuery u = Values_Encode q
    ∧ url_Parse (URL_String u) = inl (ReqURL req).

(** The course of a call once the credential is read: the request is
    created from the text of [reqURL], sent, and the response classified. *)
Definition call_outcome {T} `{Unmarshaler T} `{GoZero T}
    (cl : Client) (c : Context) (reqURL : URL) (σ : State)
  : option ((option T * option error) * State) :=
  let s := URL_String reqURL in
  let created := ev_NewRequest http_MethodPost s in
  match url_Parse s with
  | inr err =>
      Some ((None, Some (xerrors_Errorf "Failed to create request: %w" (arg_w err))),
            after σ [created])
  | inl u =>
      let req := outgoing c u in
      match HTTPClient cl with
      | None => None
      | Some hc =>
          match Transport hc (trace σ ++ [created])%list req with
          | inr err =>
              Some ((None,
                     Some (xerrors_Errorf "Failed to send http request: %w" (arg_w err))),
                    after σ [created; ev_Do req])
          | inl resp =>
              Some (returned (responseParse resp zero),
                    after σ [created; ev_Do req; ev_Close (Body resp)])
          end
      end
  end.

End Built.

(** ** The set-up of the tests of the package

    A client as the tests of the package build it: a base URL that is the
    address of a local server, a transport that gives one scripted answer, no
    logger. *)
Module Scenario.

Definition answering (status : Z) (body : string) : http_Client :=
  {| Transport := fun _ _ =>
       inl {| StatusCode := status;
              Body := {| content := Std.text body; failure := None |} |} |}.

Definition server : URL :=
  {| Scheme := "http"; Host := "127.0.0.1:8080"; Path := ""; RawQuery := "" |}.

Definition cli (hc : http_Client) : Client :=
  {| BaseURL := 1%positive; HTTPClient := Some hc; Logger := None |}.

(** A process with one client at location 1 and the credential [key]. *)
Definition process (key : option string) (u : URL) (hc : http_Client) : State :=
  {| environ := match key with
                | Some k => {[ "DEEPL_API_KEY" := k ]}
                | None => ∅
                end;
     clients := {[ 1%positive := cli hc ]};
     urls := {[ 1%positive := u ]};
     trace := [] |}.

Definition success_body : string :=
  "{'translations':[{'detected_source_language':'EN','text':'こんにちは'}]}".

Definition bad_request_body : string := "{'message':'Bad request.'}".

Definition usage_body : string :=
  "{'character_count':30315,'character_limit':1000000}".

(** A translation whose text is a number. *)
Definition mistyped_body : string :=
  "{'translations':[{'detected_source_language':'EN','text':5}]}".

Definition translated_URL : URL :=
  {| Scheme := "http"; Host := "127.0.0.1:8080"; Path := "/v2/translate";
     RawQuery := "auth_key=KEY&source_lang=EN&target_lang=JA&text=Hello" |}.

End Scenario.

(** The JSON text of a usage response (section 6 of the specification). *)
Definition AccountStatus_json (count limit : json) : json :=
  JObject [ ("character_count", count); ("character_limit", limit) ].

(** ** The checks of the tests of the package

    What [TestClient_TranslateSentence] and [TestClient_GetAccountStatus] do
    with the result of a call. *)
Module Tests.

Definition createTranslateResponse (detectLang text : string) : TranslateResponse :=
  {| Translations := [ {| DetectedSourceLanguage := detectLang; Text := text |} ] |}.

(** How a test case ends: it passes, [t.Fatalf] stops it, or it panics. *)
Inductive verdict : Type :=
| passes
| Fatalf (format : string)
| panics.

(** [strings.Contains] *)
Fixpoint strings_Contains (s substr : string) : bool :=
  String.prefix substr s
  || match s with
     | EmptyString => false
     | String _ rest => strings_Contains rest substr
     end.

(** The loop [for i, v := range correctResponse.Translations] from index
    [i] on; [expected] is [tc.expectedResponse.Translations]. *)
Fixpoint range_Translations (i : nat) (items expected : list translation) : verdict :=
  match items with
  | [] => passes
  | v :: rest =>
      match expected !! i with
      | None => panics
      | Some w =>
          if negb (String.eqb (DetectedSourceLanguage v) (DetectedSourceLanguage w))
             || negb (String.eqb (Text v) (Text w))
          then Fatalf "response items wrong. want=%+v, got=%+v"
          else range_Translations (S i) rest expected
      end
  end.

(** The body of the sub-test of [TestClient_TranslateSentence] after the
    call. *)
Definition check_TranslateSentence (expectedErrMessage : string)
    (expectedResponse : option TranslateResponse)
    (res : option TranslateResponse * option error) : verdict :=
  let '(correctResponse, err) := res in
  if String.eqb expectedErrMessage "" then
    match err with
    | Some _ => Fatalf "response error should be nil. got=%s"
    | None =>
        match correctResponse with
        | None => panics
        | Some correctResponse =>
            match Translations correctResponse with
            | [] => passes
            | items =>
                match expectedResponse with
                | None => panics
                | Some expectedResponse =>
                    range_Translations 0 items (Translations expectedResponse)
                end
            end
        end
    end
  else
    match err with
    | None => Fatalf "response error should not be non-nil. got=nil"
    | Some err =>
        if negb (strings_Contains (Error err) expectedErrMessage)
        then Fatalf "reponse error message wrong. '%s' is expected to contain '%s'"
        else passes
    end.

(** The body of the sub-test of [TestClient_GetAccountStatus] after the
    call. *)
Definition check_GetAccountStatus (expectedErrMessage : string)
    (expectedResponse : option AccountStatus)
    (res : option AccountStatus * option error) : verdict :=
  let '(correctResponse, err) := res in
  if String.eqb expectedErrMessage "" then
    match err with
    | Some _ => Fatalf "response error should be nil. got=%s"
    | None =>
        match correctResponse, expectedResponse with
        | Some got, Some want =>
            if negb (CharacterCount got =? CharacterCount want)
               || negb (CharacterLimit got =? CharacterLimit want)
            then Fatalf "response items wrong. want=%+v, got=%+v"
            else passes
        | _, _ => panics
        end
    end
  else
    match err with
    | None => Fatalf "response error should not be non-nil. got=nil"
    | Some _ => passes
    end.

End Tests.

(** * Properties *)

(** ** The classification of responses *)

Section Response.
Context `{GoRuntime}.

Lemma length_eqb_nil {A} (l : list A) : (length l =? 0)%nat = true ↔ l = [].
Proof. destruct l; simpl; split; congruence. Qed.

(** A body that cannot be read ends the call. *)
Lemma responseParse_read_error {T} `{Unmarshaler T} (resp : Response) (out : T) err :
  failure (Body resp) = Some err →
  responseParse resp out
  = (out, Some (xerrors_Errorf "Failed to read response: %w" (arg_w err))).
Proof. intros Hf. unfold responseParse, ioutil_ReadAll. by rewrite Hf. Qed.

(** Status 200: the body is decoded into the caller's struct. *)
Lemma responseParse_OK {T} `{Unmarshaler T} (resp : Response) (out : T) :
  failure (Body resp) = None → StatusCode resp = http_StatusOK →
  responseParse resp out
  = match decodeBody (content (Body resp)) out with
    | (o, Some err) => (o, Some (xerrors_Errorf "Failed to parse Json: %w" (arg_w err)))
    | (o, None) => (o, None)
    end.
Proof.
  intros Hf Hs. unfold responseParse, ioutil_ReadAll. rewrite Hf, Hs. simpl.
  destruct (decodeBody (content (Body resp)) out) as [o [e|]]; reflexivity.
Qed.

(** Another status and an empty body: the switch, with an empty message. *)
Lemma responseParse_empty {T} `{Unmarshaler T} (resp : Response) (out : T) :
  failure (Body resp) = None → StatusCode resp ≠ http_StatusOK →
  content (Body resp) = [] →
  responseParse resp out = (out, Some (status_error (StatusCode resp) "")).
Proof.
  intros Hf Hs Hb. unfold responseParse, ioutil_ReadAll. rewrite Hf, Hb.
  apply Z.eqb_neq in Hs. rewrite Hs. reflexivity.
Qed.

(** Another status and a body: the body is decoded first. *)
Lemma responseParse_body {T} `{Unmarshaler T} (resp : Response) (out : T) :
  failure (Body resp) = None → StatusCode resp ≠ http_StatusOK →
  content (Body resp) ≠ [] →
  responseParse resp out
  = match decodeBody (content (Body resp)) (zero : ErrorResponse) with
    | (_, Some err) =>
        (out, Some (xerrors_Errorf "Failed to decode error response: %w" (arg_w err)))
    | (errResp, None) =>
        (out, Some (status_error (StatusCode resp) (ErrMessage errResp)))
    end.
Proof.
  intros Hf Hs Hb. unfold responseParse, ioutil_ReadAll. rewrite Hf.
  apply Z.eqb_neq in Hs. rewrite Hs.
  destruct (length (content (Body resp)) =? 0)%nat eqn:Hl.
  { apply length_eqb_nil in Hl. contradiction. }
  simpl.
  destruct (decodeBody (content (Body resp)) zero) as [er [e|]]; reflexivity.
Qed.

(** The switch of the code and the table of the specification agree. *)
Lemma status_error_table (status : Z) (msg : string) :
  status ≠ 200 →
  outcome_error (spec_table status) msg = Some (status_error status msg).
Proof.
  intros Hs. unfold spec_table, status_error, spec_rows.
  unfold http_StatusBadRequest, http_StatusForbidden, http_StatusNotFound,
    http_StatusRequestEntityTooLarge, http_StatusTooManyRequests,
    http_StatusServiceUnavailable.
  cbn [find fst snd].
  destruct (Z.eqb_spec 200 status) as [E|_]; [congruence|].
  repeat match goal with
  | |- context [Z.eqb ?k status] =>
      rewrite (Z.eqb_sym k status);
      destruct (Z.eqb_spec status k) as [->|?]; [reflexivity|]
  end.
  destruct (500 <=? status); [reflexivity|].
  apply Z.eqb_neq in Hs. rewrite Hs. reflexivity.
Qed.

Lemma status_error_category (status : Z) (msg : string) :
  category (status_error status msg) = Some ProviderError.
Proof.
  unfold status_error.
  repeat match goal with
  | |- context [if ?b then _ else _] => destruct b; [reflexivity|]
  end.
  reflexivity.
Qed.

(** The message of a provider error object is its [message] member. *)
Lemma decode_ErrorResponse (bodyBytes : list byte) (message : string) :
  json_scan bodyBytes = Some (ErrorResponse_json message) →
  decodeBody bodyBytes (zero : ErrorResponse) = ({| ErrMessage := message |}, None).
Proof. intros Hj. unfold decodeBody, json_Unmarshal. by rewrite Hj. Qed.

End Response.

Lemma append_empty_r (s : string) : s +:+ "" = s.
Proof.
  induction s as [|c s IH]; [reflexivity|].
  change (String c (s +:+ "") = String c s). by rewrite IH.
Qed.

(** The rows of the table, one by one. *)
Lemma spec_table_rows :
  spec_table 200 = decode_success_body ∧ spec_table 400 = bad_request
  ∧ spec_table 403 = authorization_failed ∧ spec_table 404 = resource_not_found
  ∧ spec_table 413 = request_too_large ∧ spec_table 429 = too_many_requests
  ∧ spec_table 456 = quota_exceeded ∧ spec_table 503 = resource_unavailable
  ∧ spec_table 500 = internal_error ∧ spec_table 599 = internal_error
  ∧ spec_table 418 = unexpected_error ∧ spec_table 302 = unexpected_error.
Proof. repeat split. Qed.

Section ResponseClaims.
Context `{GoRuntime}.

(** C1, as amended.  For every response whose body is read to its end and
    whose body, when the status is not 200 and the body is not empty, decodes
    as a provider error object, [responseParse] gives the outcome that the
    table of the specification has for the status, read from the top: with
    200 the success body is decoded into the caller's struct; with any other
    status the caller's struct is left as it was and the error is the one of
    the first row that matches (400 bad request with the message of the
    provider, 403 authorization failed, 404 resource not found, 413 request too
    large, 429 too many requests, 456 quota exceeded, 503 resource
    unavailable, another status from 500 on internal error, anything else
    unexpected error).  With 400 and a body [{"message": m}] the text of the
    error ends with [m]. *)
Theorem responseParse_table {T} `{Unmarshaler T} (resp : Response) (out : T) :
  failure (Body resp) = None →
  (StatusCode resp ≠ 200 → content (Body resp) ≠ [] →
   snd (decodeBody (content (Body resp)) (zero : ErrorResponse)) = None) →
  let bodyBytes := content (Body resp) in
  let r := responseParse resp out in
  (StatusCode resp = 200 →
     spec_table (StatusCode resp) = decode_success_body
     ∧ r = match decodeBody bodyBytes out with
           | (o, Some err) =>
               (o, Some (xerrors_Errorf "Failed to parse Json: %w" (arg_w err)))
           | (o, None) => (o, None)
           end)
  ∧ (StatusCode resp ≠ 200 →
     fst r = out
     ∧ snd r = outcome_error (spec_table (StatusCode resp)) (provider_message bodyBytes)
     ∧ ∃ e, snd r = Some e ∧ category e = Some ProviderError)
  ∧ (StatusCode resp = 400 → ∀ message,
     bodyBytes ≠ [] → json_scan bodyBytes = Some (ErrorResponse_json message) →
     ∃ e, snd r = Some e
          ∧ Error e
            = "Bad request. Please check error message and your parameters. Error message is "
              +:+ message).
Proof.
  intros Hf Hdec bodyBytes r. subst bodyBytes r.
  assert (Hne : StatusCode resp ≠ 200 →
    responseParse resp out
    = (out, Some (status_error (StatusCode resp)
                    (provider_message (content (Body resp)))))).
  { intros Hs. destruct (content (Body resp)) as [|b bs] eqn:Hb.
    - rewrite responseParse_empty by done. reflexivity.
    - rewrite responseParse_body; [|done|done|by rewrite Hb].
      specialize (Hdec Hs). rewrite Hb in *. unfold provider_message.
      destruct (decodeBody (b :: bs) zero) as [er [e|]]; simpl in *.
      + by specialize (Hdec ltac:(done)).
      + reflexivity. }
  split; [|split].
  - intros Hs. split; [by rewrite Hs|]. by apply responseParse_OK.
  - intros Hs. rewrite (Hne Hs). simpl. split; [done|]. split.
    + by rewrite status_error_table.
    + eexists. split; [done|]. apply status_error_category.
  - intros Hs message Hb Hj.
    assert (Hs' : StatusCode resp ≠ 200) by (rewrite Hs; done).
    rewrite (Hne Hs'). simpl. eexists. split; [done|].
    rewrite Hs. unfold provider_message.
    destruct (content (Body resp)) as [|b bs]; [done|].
    rewrite (decode_ErrorResponse _ message) by done. simpl.
    by rewrite append_empty_r.
Qed.

(** C4.  For every response with a status that is not 200 and a body that is
    not empty, [responseParse] decodes the body as a provider error object
    before it looks at the status.  When the decoding fails the result is a
    decode error that wraps the failure, whatever the status, and not the
    error of the status; when it succeeds the decoded message is the one the
    switch on the status is given, and the text of the 400 error ends with
    it. *)
Theorem responseParse_decodes_error_body {T} `{Unmarshaler T}
    (resp : Response) (out : T) :
  failure (Body resp) = None → StatusCode resp ≠ 200 →
  content (Body resp) ≠ [] →
  match decodeBody (content (Body resp)) (zero : ErrorResponse) with
  | (_, Some err) =>
      ∃ e, responseParse resp out = (out, Some e)
           ∧ e = xerrors_Errorf "Failed to decode error response: %w" (arg_w err)
           ∧ category e = Some DecodeError
           ∧ ∀ msg, e ≠ status_error (StatusCode resp) msg
  | (errResp, None) =>
      responseParse resp out
      = (out, Some (status_error (StatusCode resp) (ErrMessage errResp)))
      ∧ (StatusCode resp = 400 →
         Error (status_error (StatusCode resp) (ErrMessage errResp))
         = "Bad request. Please check error message and your parameters. Error message is "
           +:+ ErrMessage errResp)
  end.
Proof.
  intros Hf Hs Hb. rewrite responseParse_body by done.
  destruct (decodeBody (content (Body resp)) zero) as [er [e|]].
  - eexists. split; [reflexivity|]. split; [reflexivity|]. split; [reflexivity|].
    intros msg Heq.
    pose proof (status_error_category (StatusCode resp) msg) as Hc.
    rewrite <- Heq in Hc. discriminate.
  - split; [reflexivity|]. intros ->. simpl. by rewrite append_empty_r.
Qed.

(** C10.  For every response with a status that is not 200 and an empty
    body, nothing is decoded: whatever the JSON scanner would say of the empty
    text, the result is the error the table has for the status, built with an
    empty provider message; it is never a decode error, and with 400 its text
    ends right after [Error message is ]. *)
Theorem responseParse_empty_body {T} `{Unmarshaler T} (resp : Response) (out : T) :
  failure (Body resp) = None → StatusCode resp ≠ 200 →
  content (Body resp) = [] →
  ∃ e, responseParse resp out = (out, Some e)
       ∧ Some e = outcome_error (spec_table (StatusCode resp)) ""
       ∧ category e = Some ProviderError
       ∧ category e ≠ Some DecodeError
       ∧ (StatusCode resp = 400 →
          Error e
          = "Bad request. Please check error message and your parameters. Error message is ").
Proof.
  intros Hf Hs Hb. rewrite responseParse_empty by done.
  eexists. split; [reflexivity|]. split; [by rewrite status_error_table|].
  rewrite status_error_category. split; [done|]. split; [done|].
  intros ->. reflexivity.
Qed.

End ResponseClaims.

(** C1 as it is stated does not hold: a 403 response whose body is not JSON
    gives a decode error, and not the error of the 403 row. *)
Lemma responseParse_table_not_total :
  let resp := {| StatusCode := 403;
                 Body := {| content := Std.text "<html>"; failure := None |} |} in
  let r := responseParse (H := std) resp (zero : TranslateResponse) in
  spec_table 403 = authorization_failed
  ∧ snd r = Some (xerrors_Errorf "Failed to decode error response: %w"
                    (arg_w json_SyntaxError))
  ∧ ∀ msg, snd r ≠ outcome_error (spec_table 403) msg.
Proof.
  split; [reflexivity|]. split; [reflexivity|]. intros msg. discriminate.
Qed.

Lemma responseParse_table_witness :
  let resp := {| StatusCode := 400;
                 Body := {| content := Std.text "{'message':'Bad request.'}";
                            failure := None |} |} in
  ∃ e, snd (responseParse (H := std) resp (zero : TranslateResponse)) = Some e
       ∧ Error e
         = "Bad request. Please check error message and your parameters. Error message is Bad request.".
Proof.
  intros resp.
  assert (Hf : failure (Body resp) = None) by reflexivity.
  assert (Hd : StatusCode resp ≠ 200 → content (Body resp) ≠ [] →
     snd (decodeBody (H := std) (content (Body resp)) (zero : ErrorResponse)) = None)
    by reflexivity.
  destruct (responseParse_table (H := std) resp (zero : TranslateResponse) Hf Hd)
    as (_ & _ & H400).
  exact (H400 eq_refl "Bad request." ltac:(discriminate) eq_refl).
Defined.

Lemma responseParse_decodes_error_body_witness :
  let resp := {| StatusCode := 403;
                 Body := {| content := Std.text "<html>"; failure := None |} |} in
  ∃ e, responseParse (H := std) resp (zero : AccountStatus) = (zero, Some e)
       ∧ category e = Some DecodeError.
Proof.
  intros resp.
  pose proof (responseParse_decodes_error_body (H := std) resp (zero : AccountStatus)
                eq_refl ltac:(discriminate) ltac:(discriminate)) as W.
  cbv beta iota zeta delta [resp] in W.
  destruct W as (e & He & _ & Hc & _). exists e. split; [exact He|exact Hc].
Defined.

Lemma responseParse_empty_body_witness :
  let resp := {| StatusCode := 404; Body := {| content := []; failure := None |} |} in
  ∃ e, responseParse (H := std) resp (zero : AccountStatus) = (zero, Some e)
       ∧ category e = Some ProviderError.
Proof.
  intros resp.
  destruct (responseParse_empty_body (H := std) resp (zero : AccountStatus)
              eq_refl ltac:(discriminate) eq_refl) as (e & He & _ & Hc & _).
  exists e. split; [exact He|exact Hc].
Defined.

(** ** The course of the two calls *)

Section Calls.
Context `{GoRuntime}.

Lemma after_after (σ : State) (l1 l2 : list event) :
  after (after σ l1) l2 = after σ (l1 ++ l2).
Proof. unfold after. simpl. by rewrite <- app_assoc. Qed.

Lemma bind_Some {A B} (m : M A) (k : A → M B) σ a σ' :
  m σ = Some (a, σ') → (m ≫= k) σ = k a σ'.
Proof. intros Hm. unfold mbind, M_bind. by rewrite Hm. Qed.

Lemma bind_None {A B} (m : M A) (k : A → M B) σ :
  m σ = None → (m ≫= k) σ = None.
Proof. intros Hm. unfold mbind, M_bind. by rewrite Hm. Qed.

Lemma bind_inv {A B} (m : M A) (k : A → M B) σ b σ'' :
  (m ≫= k) σ = Some (b, σ'') →
  ∃ a σ', m σ = Some (a, σ') ∧ k a σ' = Some (b, σ'').
Proof.
  unfold mbind, M_bind. destruct (m σ) as [[a σ']|]; [|discriminate].
  intros Hk. by exists a, σ'.
Qed.

Lemma getAPIKey_set σ key :
  environ σ !! credential = Some key → key ≠ "" →
  getAPIKey σ = Some ((key, None), σ).
Proof.
  unfold credential. intros Hk Hne.
  unfold getAPIKey, mbind, M_bind, os_LookupEnv, os_Getenv. rewrite Hk. simpl.
  destruct (String.eqb_spec key ""); [contradiction|]. simpl. by rewrite Hk.
Qed.

Lemma getAPIKey_unset σ :
  environ σ !! credential = None →
  getAPIKey σ = Some (("", Some (xerrors_New "Not set API key environment")), σ).
Proof.
  unfold credential. intros Hk.
  unfold getAPIKey, mbind, M_bind, os_LookupEnv. by rewrite Hk.
Qed.

Lemma getAPIKey_empty σ :
  environ σ !! credential = Some "" →
  getAPIKey σ = Some (("", Some (xerrors_New "DEEPL_API_KEY is empty")), σ).
Proof.
  unfold credential. intros Hk.
  unfold getAPIKey, mbind, M_bind, os_LookupEnv. by rewrite Hk.
Qed.

(** The credential is read, or the call ends with a configuration error. *)
Lemma getAPIKey_cases σ :
  (∃ key, environ σ !! credential = Some key ∧ key ≠ ""
          ∧ getAPIKey σ = Some ((key, None), σ))
  ∨ (∃ e, (environ σ !! credential = None ∨ environ σ !! credential = Some "")
          ∧ category e = Some ConfigError
          ∧ getAPIKey σ = Some (("", Some e), σ)).
Proof.
  destruct (environ σ !! credential) as [key|] eqn:Hk.
  - destruct (String.eqb_spec key "") as [->|Hne].
    + right. eexists. split; [by right|]. split; [|by apply getAPIKey_empty]. done.
    + left. exists key. split; [done|]. split; [done|]. by apply getAPIKey_set.
  - right. eexists. split; [by left|]. split; [|by apply getAPIKey_unset]. done.
Qed.

(** The part of the two calls after the credential, as one course. *)
Lemma send_and_parse {T} `{Unmarshaler T} `{GoZero T}
    (cl : Client) (c : Context) (reqURL : URL) (σ : State) :
  (r ← http_NewRequest http_MethodPost (URL_String reqURL);
   match r with
   | inr err =>
       mret (None, Some (xerrors_Errorf "Failed to create request: %w" (arg_w err)))
   | inl req =>
       let req := set_Header "User-Agent" "Deepl-Go-Client" req in
       let req := WithContext c req in
       r ← Do (HTTPClient cl) req;
       match r with
       | inr err =>
           mret (None, Some (xerrors_Errorf "Failed to send http request: %w" (arg_w err)))
       | inl resp =>
           let '(out, err) := responseParse resp (zero : T) in
           _ ← Close (Body resp);
           match err with
           | Some err => mret (None, Some err)
           | None => mret (Some out, None)
           end
       end
   end) σ
  = call_outcome cl c reqURL σ.
Proof.
  unfold call_outcome, http_NewRequest, mbind, M_bind, emit, mret, M_ret. simpl.
  destruct (url_Parse (URL_String reqURL)) as [u|err]; [|reflexivity].
  unfold Do. destruct (HTTPClient cl) as [hc|]; [|reflexivity].
  unfold emit, set_Header, WithContext, Header_Set, outgoing. simpl.
  change (<["User-Agent":=["Deepl-Go-Client"]]> (∅ : Values))
    with ({["User-Agent" := ["Deepl-Go-Client"]]} : Values).
  match goal with
  | |- context [Transport hc ?h ?q] => destruct (Transport hc h q) as [resp|err]
  end.
  - unfold returned, Close, emit, after. simpl.
    destruct (responseParse resp zero) as [out [e|]]; simpl;
      rewrite <- !app_assoc; reflexivity.
  - unfold after. simpl. rewrite <- !app_assoc. reflexivity.
Qed.

Lemma load_Client_Some σ c cl : clients σ !! c = Some cl → load_Client c σ = Some (cl, σ).
Proof. intros Hc. unfold load_Client. by rewrite Hc. Qed.

Lemma load_URL_Some σ p u : urls σ !! p = Some u → load_URL p σ = Some (u, σ).
Proof. intros Hu. unfold load_URL. by rewrite Hu. Qed.

Lemma load_Client_inv σ c cl σ' :
  load_Client c σ = Some (cl, σ') → clients σ !! c = Some cl ∧ σ' = σ.
Proof. unfold load_Client. destruct (clients σ !! c); naive_solver. Qed.

Lemma load_URL_inv σ p u σ' :
  load_URL p σ = Some (u, σ') → urls σ !! p = Some u ∧ σ' = σ.
Proof. unfold load_URL. destruct (urls σ !! p); naive_solver. Qed.

Lemma TranslateSentence_run c ctx text sourceLang targetLang σ cl u key :
  clients σ !! c = Some cl → urls σ !! BaseURL cl = Some u →
  environ σ !! credential = Some key → key ≠ "" →
  TranslateSentence c ctx text sourceLang targetLang σ
  = call_outcome cl ctx
      (endpoint_URL u "translate"
         (translate_query (url_ParseQuery (RawQuery u)) key text sourceLang targetLang))
      σ.
Proof.
  intros Hc Hu Hk Hne. unfold TranslateSentence.
  rewrite (bind_Some _ _ σ cl σ) by by apply load_Client_Some.
  rewrite (bind_Some _ _ σ u σ) by by apply load_URL_Some.
  rewrite (bind_Some _ _ σ (key, None) σ) by by apply getAPIKey_set.
  apply (send_and_parse (T := TranslateResponse)).
Qed.

Lemma GetAccountStatus_run c ctx σ cl u key :
  clients σ !! c = Some cl → urls σ !! BaseURL cl = Some u →
  environ σ !! credential = Some key → key ≠ "" →
  GetAccountStatus c ctx σ
  = call_outcome cl ctx
      (endpoint_URL u "usage" (usage_query (url_ParseQuery (RawQuery u)) key)) σ.
Proof.
  intros Hc Hu Hk Hne. unfold GetAccountStatus.
  rewrite (bind_Some _ _ σ cl σ) by by apply load_Client_Some.
  rewrite (bind_Some _ _ σ u σ) by by apply load_URL_Some.
  rewrite (bind_Some _ _ σ (key, None) σ) by by apply getAPIKey_set.
  apply (send_and_parse (T := AccountStatus)).
Qed.

(** Without a credential a call ends where it started. *)
Lemma TranslateSentence_no_credential c ctx text sourceLang targetLang σ cl u e :
  clients σ !! c = Some cl → urls σ !! BaseURL cl = Some u →
  getAPIKey σ = Some (("", Some e), σ) →
  TranslateSentence c ctx text sourceLang targetLang σ = Some ((None, Some e), σ).
Proof.
  intros Hc Hu Hk. unfold TranslateSentence.
  rewrite (bind_Some _ _ σ cl σ) by by apply load_Client_Some.
  rewrite (bind_Some _ _ σ u σ) by by apply load_URL_Some.
  by rewrite (bind_Some _ _ σ ("", Some e) σ).
Qed.

Lemma GetAccountStatus_no_credential c ctx σ cl u e :
  clients σ !! c = Some cl → urls σ !! BaseURL cl = Some u →
  getAPIKey σ = Some (("", Some e), σ) →
  GetAccountStatus c ctx σ = Some ((None, Some e), σ).
Proof.
  intros Hc Hu Hk. unfold GetAccountStatus.
  rewrite (bind_Some _ _ σ cl σ) by by apply load_Client_Some.
  rewrite (bind_Some _ _ σ u σ) by by apply load_URL_Some.
  by rewrite (bind_Some _ _ σ ("", Some e) σ).
Qed.

(** Every run of a call that does not panic is one of the two courses. *)
Lemma TranslateSentence_cases c ctx text sourceLang targetLang σ r σ' :
  TranslateSentence c ctx text sourceLang targetLang σ = Some (r, σ') →
  ∃ cl u, clients σ !! c = Some cl ∧ urls σ !! BaseURL cl = Some u
    ∧ ((∃ e, (environ σ !! credential = None ∨ environ σ !! credential = Some "")
             ∧ category e = Some ConfigError ∧ r = (None, Some e) ∧ σ' = σ)
       ∨ (∃ key, environ σ !! credential = Some key ∧ key ≠ ""
             ∧ call_outcome cl ctx
                 (endpoint_URL u "translate"
                    (translate_query (url_ParseQuery (RawQuery u)) key
                       text sourceLang targetLang)) σ
               = Some (r, σ'))).
Proof.
  intros Hrun. pose proof Hrun as Hrun'. unfold TranslateSentence in Hrun'.
  apply bind_inv in Hrun' as (cl & σ1 & Hcl & Hrun').
  apply load_Client_inv in Hcl as [Hcl ->].
  apply bind_inv in Hrun' as (u & σ1 & Hu & _).
  apply load_URL_inv in Hu as [Hu ->].
  exists cl, u. split; [done|]. split; [done|].
  destruct (getAPIKey_cases σ) as [(key & Hk & Hne & _)|(e & Hk & Hcat & Hget)].
  - right. exists key. split; [done|]. split; [done|].
    by rewrite <- (TranslateSentence_run c ctx text sourceLang targetLang σ cl u key).
  - left. exists e. split; [done|]. split; [done|].
    rewrite (TranslateSentence_no_credential _ _ _ _ _ σ cl u e) in Hrun by done.
    by inversion Hrun.
Qed.

Lemma GetAccountStatus_cases c ctx σ r σ' :
  GetAccountStatus c ctx σ = Some (r, σ') →
  ∃ cl u, clients σ !! c = Some cl ∧ urls σ !! BaseURL cl = Some u
    ∧ ((∃ e, (environ σ !! credential = None ∨ environ σ !! credential = Some "")
             ∧ category e = Some ConfigError ∧ r = (None, Some e) ∧ σ' = σ)
       ∨ (∃ key, environ σ !! credential = Some key ∧ key ≠ ""
             ∧ call_outcome cl ctx
                 (endpoint_URL u "usage" (usage_query (url_ParseQuery (RawQuery u)) key))
                 σ
               = Some (r, σ'))).
Proof.
  intros Hrun. pose proof Hrun as Hrun'. unfold GetAccountStatus in Hrun'.
  apply bind_inv in Hrun' as (cl & σ1 & Hcl & Hrun').
  apply load_Client_inv in Hcl as [Hcl ->].
  apply bind_inv in Hrun' as (u & σ1 & Hu & _).
  apply load_URL_inv in Hu as [Hu ->].
  exists cl, u. split; [done|]. split; [done|].
  destruct (getAPIKey_cases σ) as [(key & Hk & Hne & _)|(e & Hk & Hcat & Hget)].
  - right. exists key. split; [done|]. split; [done|].
    by rewrite <- (GetAccountStatus_run c ctx σ cl u key).
  - left. exists e. split; [done|]. split; [done|].
    rewrite (GetAccountStatus_no_credential _ _ σ cl u e) in Hrun by done.
    by inversion Hrun.
Qed.

Lemma call_outcome_inv {T} `{Unmarshaler T} `{GoZero T}
    (cl : Client) (c : Context) (reqURL : URL) (σ : State)
    (r : option T * option error) (σ' : State) :
  call_outcome cl c reqURL σ = Some (r, σ') →
  let created := ev_NewRequest http_MethodPost (URL_String reqURL) in
  (∃ err, url_Parse (URL_String reqURL) = inr err
          ∧ r = (None, Some (xerrors_Errorf "Failed to create request: %w" (arg_w err)))
          ∧ σ' = after σ [created])
  ∨ (∃ u hc, url_Parse (URL_String reqURL) = inl u ∧ HTTPClient cl = Some hc
       ∧ ((∃ err, Transport hc (trace σ ++ [created]) (outgoing c u) = inr err
              ∧ r = (None,
                     Some (xerrors_Errorf "Failed to send http request: %w" (arg_w err)))
              ∧ σ' = after σ [created; ev_Do (outgoing c u)])
          ∨ (∃ resp, Transport hc (trace σ ++ [created]) (outgoing c u) = inl resp
              ∧ r = returned (responseParse resp zero)
              ∧ σ' = after σ [created; ev_Do (outgoing c u); ev_Close (Body resp)]))).
Proof.
  intros Hrun. cbv zeta. unfold call_outcome in Hrun.
  destruct (url_Parse (URL_String reqURL)) as [u|err].
  - right. destruct (HTTPClient cl) as [hc|]; [|discriminate].
    exists u, hc. split; [done|]. split; [done|].
    destruct (Transport hc (trace σ ++ [ev_NewRequest http_MethodPost (URL_String reqURL)])
                (outgoing c u)) as [resp|err].
    + right. exists resp. by inversion Hrun.
    + left. exists err. by inversion Hrun.
  - left. exists err. by inversion Hrun.
Qed.

(** A call adds events to the trace and changes nothing else. *)
Lemma call_outcome_after {T} `{Unmarshaler T} `{GoZero T}
    (cl : Client) (c : Context) (reqURL : URL) (σ : State)
    (r : option T * option error) (σ' : State) :
  call_outcome cl c reqURL σ = Some (r, σ') →
  ∃ evs, σ' = after σ (ev_NewRequest http_MethodPost (URL_String reqURL) :: evs)
    ∧ ∀ req, ev_Do req ∈ evs →
        ∃ u, url_Parse (URL_String reqURL) = inl u ∧ req = outgoing c u.
Proof.
  intros Hrun. apply call_outcome_inv in Hrun.
  destruct Hrun as [(err & Hp & -> & ->)|(u & hc & Hp & Hhc & Hrun)].
  - exists []. split; [done|]. intros req Hin. by apply elem_of_nil in Hin.
  - destruct Hrun as [(err & Ht & -> & ->)|(resp & Ht & -> & ->)].
    + eexists. split; [done|]. intros req Hin.
      apply list_elem_of_singleton in Hin. inversion Hin. by exists u.
    + eexists. split; [done|]. intros req Hin.
      apply elem_of_cons in Hin as [Hin|Hin].
      * inversion Hin. by exists u.
      * apply list_elem_of_singleton in Hin. discriminate.
Qed.

(** What a call returns is a result or an error, never both and never
    neither. *)
Lemma returned_cases {T} (p : T * option error) :
  (∃ v, returned p = (Some v, None) ∧ snd p = None ∧ fst p = v)
  ∨ (∃ e, returned p = (None, Some e) ∧ snd p = Some e).
Proof.
  destruct p as [v [e|]]; unfold returned; simpl.
  - right. by exists e.
  - left. by exists v.
Qed.

Lemma call_outcome_result {T} `{Unmarshaler T} `{GoZero T}
    (cl : Client) (c : Context) (reqURL : URL) (σ : State)
    (r : option T * option error) (σ' : State) :
  call_outcome cl c reqURL σ = Some (r, σ') →
  (∃ v, r = (Some v, None)) ∨ (∃ e, r = (None, Some e)).
Proof.
  intros Hrun. apply call_outcome_inv in Hrun.
  destruct Hrun as [(err & _ & -> & _)|(u & hc & _ & _ & Hrun)].
  - right. by eexists.
  - destruct Hrun as [(err & _ & -> & _)|(resp & _ & -> & _)].
    + right. by eexists.
    + destruct (returned_cases (responseParse resp (zero : T)))
        as [(v & -> & _)|(e & -> & _)]; [left|right]; by eexists.
Qed.

(** The result of a call is the same in two states in which the client
    answers alike. *)
Lemma call_outcome_stable {T} `{Unmarshaler T} `{GoZero T}
    (cl : Client) (c : Context) (reqURL : URL) (σ1 σ2 : State) :
  (∀ hc ea eb req, HTTPClient cl = Some hc →
     Transport hc (trace σ1 ++ ea) req = Transport hc (trace σ2 ++ eb) req) →
  fst <$> call_outcome (T := T) cl c reqURL σ1
  = fst <$> call_outcome (T := T) cl c reqURL σ2.
Proof.
  intros Hstable. unfold call_outcome.
  destruct (url_Parse (URL_String reqURL)) as [u|err]; [|reflexivity].
  destruct (HTTPClient cl) as [hc|]; [|reflexivity].
  rewrite (Hstable hc [ev_NewRequest http_MethodPost (URL_String reqURL)]
             [ev_NewRequest http_MethodPost (URL_String reqURL)] _ eq_refl).
  destruct (Transport hc _ (outgoing c u)) as [resp|err]; reflexivity.
Qed.

(** Decoding the translations of a response body. *)
Lemma unmarshal_translation_json (t cur : translation) :
  unmarshal_value (translation_json t) cur = (t, None).
Proof. destruct t, cur. reflexivity. Qed.

Lemma unmarshal_elems_json (ts cur : list translation) :
  unmarshal_elems (map translation_json ts) cur = (ts, None).
Proof.
  revert cur. induction ts as [|t ts IH]; intros cur; [reflexivity|].
  cbn [map unmarshal_elems]. rewrite unmarshal_translation_json, IH. reflexivity.
Qed.

Lemma decode_TranslateResponse (bodyBytes : list byte) (ts : list translation)
    (out : TranslateResponse) :
  json_scan bodyBytes = Some (TranslateResponse_json ts) →
  decodeBody bodyBytes out = ({| Translations := ts |}, None).
Proof.
  intros Hj. unfold decodeBody, json_Unmarshal. rewrite Hj.
  unfold TranslateResponse_json, unmarshal_value, unmarshal_TranslateResponse,
    unmarshal_struct. cbn [fold_left].
  unfold store_member. simpl.
  unfold unmarshal_slice. by rewrite unmarshal_elems_json.
Qed.

(** C2.  For every text and pair of languages: when the credential is set, the
    request is created, and the client answers it with status 200 and a body
    that is read to its end, then (1) if the body is the JSON text of an
    object [{"translations": [...]}] whose elements are objects with the
    members [detected_source_language] and [text], the call returns no error
    and a [TranslateResponse] whose translations are those elements, in the
    same order and with the same strings; (2) if the body is not valid JSON,
    the call returns no result and a decode error. *)
Theorem TranslateSentence_decodes c ctx text sourceLang targetLang σ cl u hc key ru resp :
  clients σ !! c = Some cl → urls σ !! BaseURL cl = Some u →
  HTTPClient cl = Some hc →
  environ σ !! credential = Some key → key ≠ "" →
  let reqURL :=
    endpoint_URL u "translate"
      (translate_query (url_ParseQuery (RawQuery u)) key text sourceLang targetLang) in
  url_Parse (URL_String reqURL) = inl ru →
  Transport hc (trace σ ++ [ev_NewRequest http_MethodPost (URL_String reqURL)])
    (outgoing ctx ru) = inl resp →
  StatusCode resp = 200 → failure (Body resp) = None →
  (∀ ts, json_scan (content (Body resp)) = Some (TranslateResponse_json ts) →
     ∃ σ', TranslateSentence c ctx text sourceLang targetLang σ
           = Some ((Some {| Translations := ts |}, None), σ'))
  ∧ (json_scan (content (Body resp)) = None →
     ∃ e σ', TranslateSentence c ctx text sourceLang targetLang σ
             = Some ((None, Some e), σ')
             ∧ e = xerrors_Errorf "Failed to parse Json: %w" (arg_w json_SyntaxError)
             ∧ category e = Some DecodeError).
Proof.
  intros Hc Hu Hhc Hk Hne reqURL Hp Ht Hs Hf.
  rewrite (TranslateSentence_run c ctx text sourceLang targetLang σ cl u key) by done.
  fold reqURL. unfold call_outcome. rewrite Hp, Hhc, Ht.
  rewrite responseParse_OK by done.
  split.
  - intros ts Hj. rewrite (decode_TranslateResponse _ ts) by done.
    eexists. reflexivity.
  - intros Hj. unfold decodeBody, json_Unmarshal. rewrite Hj.
    do 2 eexists. split; [reflexivity|]. done.
Qed.

(** C3.  For every call of [TranslateSentence] or [GetAccountStatus] on a
    client: (1) if the variable [DEEPL_API_KEY] is not set or is empty, the
    call returns no result and a configuration error and leaves the state as
    it was, so that it has neither created nor sent a request; (2) every
    request that a call sends carries the value of the variable, which is then
    set and not empty, as the last [auth_key] of its query. *)
Theorem credential_precondition c ctx text sourceLang targetLang σ cl u :
  clients σ !! c = Some cl → urls σ !! BaseURL cl = Some u →
  ((environ σ !! credential = None ∨ environ σ !! credential = Some "") →
     (∃ e, TranslateSentence c ctx text sourceLang targetLang σ = Some ((None, Some e), σ)
           ∧ category e = Some ConfigError)
     ∧ (∃ e, GetAccountStatus c ctx σ = Some ((None, Some e), σ)
             ∧ category e = Some ConfigError))
  ∧ (∀ r σ', TranslateSentence c ctx text sourceLang targetLang σ = Some (r, σ') →
       ∃ evs, trace σ' = (trace σ ++ evs)%list
         ∧ ∀ req, ev_Do req ∈ evs →
             ∃ key, environ σ !! credential = Some key ∧ key ≠ ""
                    ∧ carries_credential key req)
  ∧ (∀ r σ', GetAccountStatus c ctx σ = Some (r, σ') →
       ∃ evs, trace σ' = (trace σ ++ evs)%list
         ∧ ∀ req, ev_Do req ∈ evs →
             ∃ key, environ σ !! credential = Some key ∧ key ≠ ""
                    ∧ carries_credential key req).
Proof.
  intros Hc Hu. split; [|split].
  - intros Habsent.
    destruct (getAPIKey_cases σ) as [(key & Hk & Hne & _)|(e & _ & Hcat & Hget)].
    { destruct Habsent as [Ha|Ha]; rewrite Ha in Hk; congruence. }
    split; exists e; split; try done.
    + by apply (TranslateSentence_no_credential _ _ _ _ _ σ cl u).
    + by apply (GetAccountStatus_no_credential _ _ σ cl u).
  - intros r σ' Hrun.
    apply TranslateSentence_cases in Hrun as (cl' & u' & Hc' & Hu' & Hrun).
    destruct Hrun as [(e & _ & _ & _ & ->)|(key & Hk & Hne & Hrun)].
    { exists []. split; [by rewrite app_nil_r|]. intros req Hin.
      by apply elem_of_nil in Hin. }
    apply call_outcome_after in Hrun as (evs & -> & Hsent).
    eexists. split; [reflexivity|]. intros req Hin.
    apply elem_of_cons in Hin as [Hin|Hin]; [discriminate|].
    destruct (Hsent req Hin) as (ru & Hp & ->).
    exists key. split; [done|]. split; [done|].
    eexists _, _. split; [|split; [|exact Hp]]; [|reflexivity].
    unfold translate_query, Values_Add.
    rewrite !lookup_insert_ne by done. rewrite lookup_insert_eq. simpl.
    apply last_snoc.
  - intros r σ' Hrun.
    apply GetAccountStatus_cases in Hrun as (cl' & u' & Hc' & Hu' & Hrun).
    destruct Hrun as [(e & _ & _ & _ & ->)|(key & Hk & Hne & Hrun)].
    { exists []. split; [by rewrite app_nil_r|]. intros req Hin.
      by apply elem_of_nil in Hin. }
    apply call_outcome_after in Hrun as (evs & -> & Hsent).
    eexists. split; [reflexivity|]. intros req Hin.
    apply elem_of_cons in Hin as [Hin|Hin]; [discriminate|].
    destruct (Hsent req Hin) as (ru & Hp & ->).
    exists key. split; [done|]. split; [done|].
    eexists _, _. split; [|split; [|exact Hp]]; [|reflexivity].
    unfold usage_query, Values_Add. rewrite lookup_insert_eq. simpl.
    apply last_snoc.
Qed.

(** In [deepl.go] a call returns a result and no error, or an error and the
    nil pointer. *)
Lemma no_partial_result c ctx text sourceLang targetLang σ :
  (∀ r σ', TranslateSentence c ctx text sourceLang targetLang σ = Some (r, σ') →
     (∃ v, r = (Some v, None)) ∨ (∃ e, r = (None, Some e)))
  ∧ (∀ r σ', GetAccountStatus c ctx σ = Some (r, σ') →
     (∃ v, r = (Some v, None)) ∨ (∃ e, r = (None, Some e))).
Proof.
  split; intros r σ' Hrun.
  - apply TranslateSentence_cases in Hrun as (cl & u & _ & _ & Hrun).
    destruct Hrun as [(e & _ & _ & -> & _)|(key & _ & _ & Hrun)].
    + right. by eexists.
    + by apply call_outcome_result in Hrun.
  - apply GetAccountStatus_cases in Hrun as (cl & u & _ & _ & Hrun).
    destruct Hrun as [(e & _ & _ & -> & _)|(key & _ & _ & Hrun)].
    + right. by eexists.
    + by apply call_outcome_result in Hrun.
Qed.

(** The parameters of a request: those of the query of the base URL, and
    after them the ones the call adds. *)
Lemma translate_query_lookup (base : Values) (key text sourceLang targetLang k : string) :
  translate_query base key text sourceLang targetLang !! k
  = if decide (k = "source_lang") then Some (default [] (base !! k) ++ [sourceLang])%list
    else if decide (k = "target_lang") then Some (default [] (base !! k) ++ [targetLang])%list
    else if decide (k = "text") then Some (default [] (base !! k) ++ [text])%list
    else if decide (k = "auth_key") then Some (default [] (base !! k) ++ [key])%list
    else base !! k.
Proof.
  unfold translate_query, Values_Add.
  repeat case_decide; subst;
    repeat first [rewrite lookup_insert_eq | rewrite lookup_insert_ne by done];
    reflexivity.
Qed.

Lemma usage_query_lookup (base : Values) (key k : string) :
  usage_query base key !! k
  = if decide (k = "auth_key") then Some (default [] (base !! k) ++ [key])%list
    else base !! k.
Proof.
  unfold usage_query, Values_Add. case_decide; subst.
  - by rewrite lookup_insert_eq.
  - by rewrite lookup_insert_ne.
Qed.

(** C6, as amended.  For every call on a client with the credential set:
    [TranslateSentence] creates one request, with the method POST and the
    text of the base URL with [v2/translate] joined to its path and, as
    query, the encoding of the parameters of the base URL's own query with
    [auth_key], [text], [target_lang] and [source_lang] added with the values
    of the arguments; [GetAccountStatus] does the same with [v2/usage] and
    [auth_key] alone.  When the base URL has no query the parameters are
    these four, or this one, and no other.  A request that is sent has the
    method POST, the context of the caller, and the header [User-Agent] with
    the value [Deepl-Go-Client] and no other header. *)
Theorem calls_build_request c cx text sourceLang targetLang σ cl u key :
  clients σ !! c = Some cl → urls σ !! BaseURL cl = Some u →
  environ σ !! credential = Some key → key ≠ "" →
  let base := url_ParseQuery (RawQuery u) in
  let built endpoint q :=
    URL_String {| Scheme := Scheme u; Host := Host u;
                  Path := path_Join [Path u; "v2"; endpoint];
                  RawQuery := Values_Encode q |} in
  let sent_as (s : string) (req : Request) :=
    Method req = "POST" ∧ ctx req = cx
    ∧ Header req = {[ "User-Agent" := ["Deepl-Go-Client"] ]}
    ∧ url_Parse s = inl (ReqURL req) in
  (∀ r σ', TranslateSentence c cx text sourceLang targetLang σ = Some (r, σ') →
     ∃ q evs,
       trace σ' = (trace σ ++ ev_NewRequest "POST" (built "translate" q) :: evs)%list
       ∧ (∀ method s, ev_NewRequest method s ∉ evs)
       ∧ (∀ req, ev_Do req ∈ evs → sent_as (built "translate" q) req)
       ∧ (∀ k, q !! k
               = if decide (k = "source_lang")
                 then Some (default [] (base !! k) ++ [sourceLang])%list
                 else if decide (k = "target_lang")
                 then Some (default [] (base !! k) ++ [targetLang])%list
                 else if decide (k = "text")
                 then Some (default [] (base !! k) ++ [text])%list
                 else if decide (k = "auth_key")
                 then Some (default [] (base !! k) ++ [key])%list
                 else base !! k)
       ∧ (base = ∅ →
          q = <["source_lang" := [sourceLang]]> (<["target_lang" := [targetLang]]>
                (<["text" := [text]]> {[ "auth_key" := [key] ]}))))
  ∧ (∀ r σ', GetAccountStatus c cx σ = Some (r, σ') →
     ∃ q evs,
       trace σ' = (trace σ ++ ev_NewRequest "POST" (built "usage" q) :: evs)%list
       ∧ (∀ method s, ev_NewRequest method s ∉ evs)
       ∧ (∀ req, ev_Do req ∈ evs → sent_as (built "usage" q) req)
       ∧ (∀ k, q !! k
               = if decide (k = "auth_key")
                 then Some (default [] (base !! k) ++ [key])%list
                 else base !! k)
       ∧ (base = ∅ → q = {[ "auth_key" := [key] ]})).
Proof.
  intros Hc Hu Hk Hne base built sent_as.
  assert (Hevs : ∀ {T} `{Unmarshaler T} `{GoZero T} reqURL
                   (r : option T * option error) σ',
    call_outcome cl cx reqURL σ = Some (r, σ') →
    ∃ evs, trace σ' = (trace σ ++ ev_NewRequest "POST" (URL_String reqURL) :: evs)%list
      ∧ (∀ method s, ev_NewRequest method s ∉ evs)
      ∧ (∀ req, ev_Do req ∈ evs → sent_as (URL_String reqURL) req)).
  { intros T ? ? reqURL r σ' Hrun. apply call_outcome_inv in Hrun.
    destruct Hrun as [(err & _ & _ & ->)|(ru & hc & Hp & _ & Hrun)].
    - exists []. split; [done|]. split.
      + intros method s. apply not_elem_of_nil.
      + intros req Hin. by apply not_elem_of_nil in Hin.
    - destruct Hrun as [(err & _ & _ & ->)|(resp & _ & _ & ->)].
      + eexists. split; [done|]. split.
        * intros method s Hin. apply list_elem_of_singleton in Hin. discriminate.
        * intros req Hin. apply list_elem_of_singleton in Hin. inversion Hin.
          by repeat split.
      + eexists. split; [done|]. split.
        * intros method s Hin. apply elem_of_cons in Hin as [Hin|Hin]; [discriminate|].
          apply list_elem_of_singleton in Hin. discriminate.
        * intros req Hin. apply elem_of_cons in Hin as [Hin|Hin].
          -- inversion Hin. by repeat split.
          -- apply list_elem_of_singleton in Hin. discriminate. }
  split; intros r σ' Hrun.
  - rewrite (TranslateSentence_run c cx text sourceLang targetLang σ cl u key)
      in Hrun by done.
    apply Hevs in Hrun as (evs & Htr & Hnew & Hsent).
    exists (translate_query base key text sourceLang targetLang), evs.
    split; [exact Htr|]. split; [exact Hnew|]. split; [exact Hsent|]. split.
    + intros k. apply translate_query_lookup.
    + intros ->. unfold translate_query, Values_Add.
      rewrite lookup_empty. simpl. rewrite insert_empty.
      by rewrite !lookup_insert_ne, lookup_singleton_ne by done.
  - rewrite (GetAccountStatus_run c cx σ cl u key) in Hrun by done.
    apply Hevs in Hrun as (evs & Htr & Hnew & Hsent).
    exists (usage_query base key), evs.
    split; [exact Htr|]. split; [exact Hnew|]. split; [exact Hsent|]. split.
    + intros k. apply usage_query_lookup.
    + intros ->. unfold usage_query, Values_Add.
      rewrite lookup_empty. simpl. by rewrite insert_empty.
Qed.

(** C7.  For every base URL text and logger, given or not: when the text does
    not parse, [New] returns no client and a configuration error and leaves
    the state as it was; when it parses, [New] returns no error and a new
    client that holds the parsed URL, [http.DefaultClient] and the given
    logger, or the logger to standard error with the prefix [[Log]] when none
    is given.  In both cases the trace is as before: no request is created or
    sent.  So [New] returns an error exactly when the text does not parse. *)
Theorem New_parses (rawBaseURL : string) (logger : option log_Logger) (σ : State) :
  match url_Parse rawBaseURL with
  | inr _ =>
      ∃ e, New rawBaseURL logger σ = Some ((None, Some e), σ)
           ∧ category e = Some ConfigError
  | inl baseURL =>
      ∃ c p σ',
        New rawBaseURL logger σ = Some ((Some c, None), σ')
        ∧ clients σ !! c = None ∧ urls σ !! p = None
        ∧ clients σ'
          = <[c := {| BaseURL := p;
                      HTTPClient := Some http_DefaultClient;
                      Logger := Some (default (log_New os_Stderr "[Log]" log_LstdFlags)
                                        logger) |}]> (clients σ)
        ∧ urls σ' = <[p := baseURL]> (urls σ)
        ∧ trace σ' = trace σ ∧ environ σ' = environ σ
  end.
Proof.
  unfold New. destruct (url_Parse rawBaseURL) as [baseURL|err].
  - exists (fresh (dom (clients σ))), (fresh (dom (urls σ))).
    destruct logger as [l|]; (eexists; split; [reflexivity|]);
      (split; [apply not_elem_of_dom, is_fresh|]);
      (split; [apply not_elem_of_dom, is_fresh|]); done.
  - eexists. split; [reflexivity|]. reflexivity.
Qed.

Lemma TranslateSentence_no_URL c ctx text sourceLang targetLang σ cl :
  clients σ !! c = Some cl → urls σ !! BaseURL cl = None →
  TranslateSentence c ctx text sourceLang targetLang σ = None.
Proof.
  intros Hc Hu. unfold TranslateSentence.
  rewrite (bind_Some _ _ σ cl σ) by by apply load_Client_Some.
  apply bind_None. unfold load_URL. by rewrite Hu.
Qed.

Lemma GetAccountStatus_no_URL c ctx σ cl :
  clients σ !! c = Some cl → urls σ !! BaseURL cl = None →
  GetAccountStatus c ctx σ = None.
Proof.
  intros Hc Hu. unfold GetAccountStatus.
  rewrite (bind_Some _ _ σ cl σ) by by apply load_Client_Some.
  apply bind_None. unfold load_URL. by rewrite Hu.
Qed.

(** C8.  For every call and every two states in which the client and its
    base URL are the same, the variable [DEEPL_API_KEY] has the same value,
    and the client answers a request alike whatever has been done before: the
    two runs of [TranslateSentence] with the same arguments return the same
    result and error (or both stop on a nil pointer), and so do the two runs
    of [GetAccountStatus]. *)
Theorem calls_repeatable c ctx text sourceLang targetLang σ1 σ2 cl :
  clients σ1 !! c = Some cl → clients σ2 !! c = Some cl →
  urls σ1 !! BaseURL cl = urls σ2 !! BaseURL cl →
  environ σ1 !! credential = environ σ2 !! credential →
  (∀ hc ea eb req, HTTPClient cl = Some hc →
     Transport hc (trace σ1 ++ ea) req = Transport hc (trace σ2 ++ eb) req) →
  fst <$> TranslateSentence c ctx text sourceLang targetLang σ1
  = fst <$> TranslateSentence c ctx text sourceLang targetLang σ2
  ∧ fst <$> GetAccountStatus c ctx σ1 = fst <$> GetAccountStatus c ctx σ2.
Proof.
  intros Hc1 Hc2 Hu Hk Hstable.
  destruct (urls σ1 !! BaseURL cl) as [u|] eqn:Hu1; symmetry in Hu.
  2: { rewrite (TranslateSentence_no_URL _ _ _ _ _ σ1 cl),
         (TranslateSentence_no_URL _ _ _ _ _ σ2 cl),
         (GetAccountStatus_no_URL _ _ σ1 cl), (GetAccountStatus_no_URL _ _ σ2 cl)
         by done.
       done. }
  destruct (environ σ1 !! credential) as [key|] eqn:Hk1; symmetry in Hk.
  - destruct (String.eqb_spec key "") as [->|Hne].
    + rewrite (TranslateSentence_no_credential _ _ _ _ _ σ1 cl u _ Hc1 Hu1
                 (getAPIKey_empty σ1 Hk1)).
      rewrite (TranslateSentence_no_credential _ _ _ _ _ σ2 cl u _ Hc2 Hu
                 (getAPIKey_empty σ2 Hk)).
      rewrite (GetAccountStatus_no_credential _ _ σ1 cl u _ Hc1 Hu1
                 (getAPIKey_empty σ1 Hk1)).
      rewrite (GetAccountStatus_no_credential _ _ σ2 cl u _ Hc2 Hu
                 (getAPIKey_empty σ2 Hk)).
      done.
    + rewrite (TranslateSentence_run _ _ _ _ _ σ1 cl u key) by done.
      rewrite (TranslateSentence_run _ _ _ _ _ σ2 cl u key) by done.
      rewrite (GetAccountStatus_run _ _ σ1 cl u key) by done.
      rewrite (GetAccountStatus_run _ _ σ2 cl u key) by done.
      split; by apply call_outcome_stable.
  - rewrite (TranslateSentence_no_credential _ _ _ _ _ σ1 cl u _ Hc1 Hu1
               (getAPIKey_unset σ1 Hk1)).
    rewrite (TranslateSentence_no_credential _ _ _ _ _ σ2 cl u _ Hc2 Hu
               (getAPIKey_unset σ2 Hk)).
    rewrite (GetAccountStatus_no_credential _ _ σ1 cl u _ Hc1 Hu1
               (getAPIKey_unset σ1 Hk1)).
    rewrite (GetAccountStatus_no_credential _ _ σ2 cl u _ Hc2 Hu
               (getAPIKey_unset σ2 Hk)).
    done.
Qed.

(** C9.  Every call of [TranslateSentence] or [GetAccountStatus] leaves every
    Client object and every URL object as it was, the receiver and its base
    URL among them, and the environment too: the path and the query of the
    request are written to a copy of the base URL, and a call adds events to
    the trace and does nothing else. *)
Theorem calls_leave_client c ctx text sourceLang targetLang σ σ'
    (r : option TranslateResponse * option error)
    (r' : option AccountStatus * option error) :
  TranslateSentence c ctx text sourceLang targetLang σ = Some (r, σ')
  ∨ GetAccountStatus c ctx σ = Some (r', σ') →
  clients σ' = clients σ ∧ urls σ' = urls σ ∧ environ σ' = environ σ
  ∧ (∃ cl u, clients σ' !! c = Some cl ∧ clients σ !! c = Some cl
             ∧ urls σ' !! BaseURL cl = Some u ∧ urls σ !! BaseURL cl = Some u)
  ∧ ∃ evs, trace σ' = (trace σ ++ evs)%list.
Proof.
  assert (Hframe : ∀ evs, clients (after σ evs) = clients σ
    ∧ urls (after σ evs) = urls σ ∧ environ (after σ evs) = environ σ) by done.
  intros [Hrun|Hrun].
  - apply TranslateSentence_cases in Hrun as (cl & u & Hc & Hu & Hrun).
    destruct Hrun as [(e & _ & _ & _ & ->)|(key & _ & _ & Hrun)].
    + repeat split; try done.
      * by exists cl, u.
      * exists []. by rewrite app_nil_r.
    + apply call_outcome_after in Hrun as (evs & -> & _).
      repeat split; try done.
      * by exists cl, u.
      * by eexists.
  - apply GetAccountStatus_cases in Hrun as (cl & u & Hc & Hu & Hrun).
    destruct Hrun as [(e & _ & _ & _ & ->)|(key & _ & _ & Hrun)].
    + repeat split; try done.
      * by exists cl, u.
      * exists []. by rewrite app_nil_r.
    + apply call_outcome_after in Hrun as (evs & -> & _).
      repeat split; try done.
      * by exists cl, u.
      * by eexists.
Qed.

End Calls.

(** ** The scenarios of the specification, run on the reference
    implementation *)

Import Scenario.

Example translate_Hello :
  ∃ σ',
    TranslateSentence (H := std) 1 context_Background "Hello" "EN" "JA"
      (process (Some "KEY") server (answering 200 success_body))
    = Some ((Some {| Translations :=
                       [{| DetectedSourceLanguage := "EN"; Text := "こんにちは" |}] |},
             None), σ')
    ∧ trace σ'
      = [ ev_NewRequest "POST"
            "http://127.0.0.1:8080/v2/translate?auth_key=KEY&source_lang=EN&target_lang=JA&text=Hello"
        ; ev_Do (outgoing context_Background translated_URL)
        ; ev_Close {| content := Std.text success_body; failure := None |} ].
Proof. eexists. split; vm_compute; reflexivity. Qed.

Example translate_missing_target_lang :
  ∃ e σ',
    TranslateSentence (H := std) 1 context_Background "hello" "EN" ""
      (process (Some "KEY") server (answering 400 bad_request_body))
    = Some ((None, Some e), σ')
    ∧ category e = Some ProviderError
    ∧ Error e
      = "Bad request. Please check error message and your parameters. Error message is Bad request.".
Proof. do 2 eexists. split; [vm_compute; reflexivity|]. split; reflexivity. Qed.

Example usage_counts :
  ∃ σ',
    GetAccountStatus (H := std) 1 context_Background
      (process (Some "KEY") server (answering 200 usage_body))
    = Some ((Some {| CharacterCount := 30315; CharacterLimit := 1000000 |}, None), σ')
    ∧ trace σ'
      = [ ev_NewRequest "POST" "http://127.0.0.1:8080/v2/usage?auth_key=KEY"
        ; ev_Do (outgoing context_Background
                   {| Scheme := "http"; Host := "127.0.0.1:8080"; Path := "/v2/usage";
                      RawQuery := "auth_key=KEY" |})
        ; ev_Close {| content := Std.text usage_body; failure := None |} ].
Proof. eexists. split; vm_compute; reflexivity. Qed.

(** ** The claims at concrete inputs *)

Lemma TranslateSentence_decodes_witness :
  ∃ σ',
    TranslateSentence (H := std) 1 context_Background "Hello" "EN" "JA"
      (process (Some "KEY") server (answering 200 success_body))
    = Some ((Some {| Translations :=
                       [{| DetectedSourceLanguage := "EN"; Text := "こんにちは" |}] |},
             None), σ').
Proof.
  destruct (TranslateSentence_decodes (H := std) 1 context_Background "Hello" "EN" "JA"
              (process (Some "KEY") server (answering 200 success_body))
              (cli (answering 200 success_body)) server (answering 200 success_body)
              "KEY" translated_URL
              {| StatusCode := 200;
                 Body := {| content := Std.text success_body; failure := None |} |}
              ltac:(vm_compute; reflexivity) ltac:(vm_compute; reflexivity)
              ltac:(reflexivity) ltac:(vm_compute; reflexivity) ltac:(discriminate)
              ltac:(vm_compute; reflexivity) ltac:(reflexivity)
              ltac:(reflexivity) ltac:(reflexivity)) as [Hok _].
  exact (Hok [{| DetectedSourceLanguage := "EN"; Text := "こんにちは" |}]
           ltac:(vm_compute; reflexivity)).
Defined.

Lemma credential_precondition_witness :
  ∃ e,
    TranslateSentence (H := std) 1 context_Background "Hello" "EN" "JA"
      (process None server (answering 200 success_body))
    = Some ((None, Some e), process None server (answering 200 success_body))
    ∧ category e = Some ConfigError.
Proof.
  destruct (credential_precondition (H := std) 1 context_Background "Hello" "EN" "JA"
              (process None server (answering 200 success_body))
              (cli (answering 200 success_body)) server
              ltac:(vm_compute; reflexivity) ltac:(vm_compute; reflexivity))
    as [Habsent _].
  assert (Hunset : environ (process None server (answering 200 success_body))
                     !! credential = None) by (vm_compute; reflexivity).
  exact (proj1 (Habsent (or_introl Hunset))).
Defined.

(** C5 does not hold of the older [TranslateSentence].  With the credential
    set and a 200 response in which the text of a translation is a number,
    the older function returns an error together with a pointer to a result
    in which the detected language is stored and the text is not;
    [TranslateSentence] of [deepl.go] returns the same error and the nil
    pointer, as C5 says. *)
Theorem Older_TranslateSentence_partial_result :
  let σ := process (Some "KEY") server (answering 200 mistyped_body) in
  ∃ e σ',
    Older.TranslateSentence (H := std) 1 context_Background "hello" "EN" "JA" σ
    = Some ((Some {| Translations :=
                       [{| DetectedSourceLanguage := "EN"; Text := "" |}] |},
             Some e), σ')
    ∧ TranslateSentence (H := std) 1 context_Background "hello" "EN" "JA" σ
      = Some ((None, Some e), σ')
    ∧ e = xerrors_Errorf "Failed to parse Json: %w"
            (arg_w (json_UnmarshalTypeError "number" "string"))
    ∧ category e = Some DecodeError.
Proof.
  do 2 eexists. split; [vm_compute; reflexivity|].
  split; [vm_compute; reflexivity|]. split; reflexivity.
Qed.

(** The older function returns a pointer with every error, also when the
    credential is not set. *)
Example Older_TranslateSentence_no_credential :
  let σ := process None server (answering 200 success_body) in
  Older.TranslateSentence (H := std) 1 context_Background "hello" "EN" "JA" σ
  = Some ((Some {| Translations := [] |},
           Some (xerrors_Errorf "Not set API key environment" no_args)), σ).
Proof. vm_compute. reflexivity. Qed.

(** C6 as it is stated does not hold: a client made by [New] from a base URL
    with a query sends that query too.  Here the request of
    [GetAccountStatus] has the parameter [x] next to [auth_key]. *)
Lemma base_query_is_sent :
  let σ := {| environ := {[ "DEEPL_API_KEY" := "KEY" ]}; clients := ∅; urls := ∅;
              trace := [] |} in
  ∃ c σ1 r σ2 req,
    New (H := std) "https://api.deepl.com?x=1" None σ = Some ((Some c, None), σ1)
    ∧ GetAccountStatus (H := std) c context_Background σ1 = Some (r, σ2)
    ∧ trace σ2
      = [ ev_NewRequest "POST" "https://api.deepl.com/v2/usage?auth_key=KEY&x=1"
        ; ev_Do req ]
    ∧ RawQuery (ReqURL req) = "auth_key=KEY&x=1"
    ∧ Std.ParseQuery (RawQuery (ReqURL req)) !! "x" = Some ["1"]
    ∧ Std.ParseQuery (RawQuery (ReqURL req)) ≠ {[ "auth_key" := ["KEY"] ]}.
Proof.
  do 5 eexists. split; [vm_compute; reflexivity|].
  split; [vm_compute; reflexivity|]. split; [vm_compute; reflexivity|].
  split; [reflexivity|]. split; [vm_compute; reflexivity|].
  intros Heq. apply (f_equal (fun m : Values => m !! "x")) in Heq.
  vm_compute in Heq. discriminate.
Qed.

Lemma calls_build_request_witness :
  ∃ (q : Values) (σ' : State),
    q = <["source_lang" := ["EN"]]> (<["target_lang" := ["JA"]]>
          (<["text" := ["Hello"]]> {[ "auth_key" := ["KEY"] ]}))
    ∧ ∃ evs, trace σ'
        = ev_NewRequest "POST"
            "http://127.0.0.1:8080/v2/translate?auth_key=KEY&source_lang=EN&target_lang=JA&text=Hello"
          :: evs.
Proof.
  set (σ := process (Some "KEY") server (answering 200 success_body)).
  destruct (calls_build_request (H := std) 1 context_Background "Hello" "EN" "JA"
              σ (cli (answering 200 success_body)) server "KEY"
              ltac:(vm_compute; reflexivity) ltac:(vm_compute; reflexivity)
              ltac:(vm_compute; reflexivity) ltac:(discriminate)) as [Htr _].
  destruct (TranslateSentence (H := std) 1 context_Background "Hello" "EN" "JA" σ)
    as [[r σ']|] eqn:Hrun; [|vm_compute in Hrun; discriminate].
  destruct (Htr r σ' eq_refl) as (q & evs & Htrace & _ & _ & _ & Hq).
  exists q, σ'. split.
  - apply Hq. vm_compute. reflexivity.
  - exists evs. rewrite Htrace, (Hq ltac:(vm_compute; reflexivity)).
    vm_compute. reflexivity.
Defined.

Lemma calls_repeatable_witness :
  let σ := process (Some "KEY") server (answering 200 success_body) in
  let later := after σ [ev_Close {| content := []; failure := None |}] in
  fst <$> TranslateSentence (H := std) 1 context_Background "Hello" "EN" "JA" σ
  = fst <$> TranslateSentence (H := std) 1 context_Background "Hello" "EN" "JA" later.
Proof.
  intros σ later.
  exact (proj1 (calls_repeatable (H := std) 1 context_Background "Hello" "EN" "JA"
                  σ later (cli (answering 200 success_body))
                  ltac:(vm_compute; reflexivity) ltac:(vm_compute; reflexivity)
                  ltac:(vm_compute; reflexivity) ltac:(vm_compute; reflexivity)
                  ltac:(intros hc ea eb req Hhc; inversion Hhc; reflexivity))).
Defined.

Lemma calls_leave_client_witness :
  let σ := process (Some "KEY") server (answering 200 success_body) in
  ∃ σ', clients σ' = clients σ ∧ urls σ' = urls σ ∧ environ σ' = environ σ
        ∧ trace σ' ≠ trace σ.
Proof.
  intros σ.
  destruct (TranslateSentence (H := std) 1 context_Background "Hello" "EN" "JA" σ)
    as [[r σ']|] eqn:Hrun; [|vm_compute in Hrun; discriminate].
  destruct (calls_leave_client (H := std) 1 context_Background "Hello" "EN" "JA" σ σ'
              r (None, None) (or_introl Hrun)) as (Hc & Hu & He & _ & _).
  exists σ'. split; [exact Hc|]. split; [exact Hu|]. split; [exact He|].
  vm_compute in Hrun. inversion Hrun. discriminate.
Defined.

(** ** More on the functions of [deepl.go] *)

Section More.
Context `{GoRuntime}.

(** X1.  [getAPIKey] changes nothing, and what it returns is a key that is
    not empty and no error, or the empty string and an error: the key is the
    value of [DEEPL_API_KEY], and the error says that the variable is not set
    or is empty. *)
Theorem getAPIKey_key_or_error σ k e σ' :
  getAPIKey σ = Some ((k, e), σ') →
  σ' = σ
  ∧ (e = None ↔ k ≠ "")
  ∧ (e = None → environ σ !! credential = Some k)
  ∧ (∀ err, e = Some err →
       category err = Some ConfigError
       ∧ (environ σ !! credential = None ∧ Error err = "Not set API key environment"
          ∨ environ σ !! credential = Some "" ∧ Error err = "DEEPL_API_KEY is empty")).
Proof.
  intros Hget.
  destruct (environ σ !! credential) as [v|] eqn:Hv.
  - destruct (String.eqb_spec v "") as [->|Hne].
    + rewrite getAPIKey_empty in Hget by done. inversion Hget; subst.
      split; [done|]. split; [split; [discriminate|done]|]. split; [discriminate|].
      intros err Herr. inversion Herr; subst. split; [done|]. right. done.
    + rewrite (getAPIKey_set σ v) in Hget by done. inversion Hget; subst.
      split; [done|]. split; [done|]. split; [done|]. discriminate.
  - rewrite getAPIKey_unset in Hget by done. inversion Hget; subst.
    split; [done|]. split; [split; [discriminate|done]|]. split; [discriminate|].
    intros err Herr. inversion Herr; subst. split; [done|]. left. done.
Qed.

Lemma status_error_is_error {T} `{Unmarshaler T} (resp : Response) (out : T) :
  failure (Body resp) = None → StatusCode resp ≠ 200 →
  fst (responseParse resp out) = out ∧ snd (responseParse resp out) ≠ None.
Proof.
  intros Hf Hs. destruct (content (Body resp)) as [|b bs] eqn:Hb.
  - rewrite responseParse_empty by done. done.
  - rewrite responseParse_body; [|done|done|by rewrite Hb].
    rewrite Hb. destruct (decodeBody (b :: bs) zero) as [er [e|]]; done.
Qed.

(** X2.  [responseParse] returns no error exactly when the body was read to
    its end, the status is 200 and the body decodes into the caller's struct:
    every other status, the other 2xx among them, is an error.  It writes to
    the caller's struct with status 200 only. *)
Theorem responseParse_succeeds_iff {T} `{Unmarshaler T} (resp : Response) (out : T) :
  (snd (responseParse resp out) = None
   ↔ failure (Body resp) = None ∧ StatusCode resp = 200
     ∧ snd (decodeBody (content (Body resp)) out) = None)
  ∧ (StatusCode resp ≠ 200 ∨ failure (Body resp) ≠ None →
     fst (responseParse resp out) = out).
Proof.
  destruct (failure (Body resp)) as [err|] eqn:Hf.
  { rewrite (responseParse_read_error resp out err) by done. simpl.
    split; [split; [discriminate|intros (? & _); discriminate]|done]. }
  destruct (decide (StatusCode resp = 200)) as [Hs|Hs].
  - rewrite responseParse_OK by done. split.
    + destruct (decodeBody (content (Body resp)) out) as [o [e|]]; simpl.
      * split; [discriminate|intros (_ & _ & ?); discriminate].
      * done.
    + intros [?|?]; done.
  - destruct (status_error_is_error resp out Hf Hs) as [Hout Herr]. split.
    + split; [done|]. intros (_ & ? & _). done.
    + done.
Qed.

(** X4.  The text of the error tells the row of the table: two responses
    that are not 200 and get errors with the same text are in the same row,
    and in the row of 400 the provider messages are the same. *)
Theorem status_error_text_tells_row (status status' : Z) (msg msg' : string) :
  status ≠ 200 → status' ≠ 200 →
  Error (status_error status msg) = Error (status_error status' msg') →
  spec_table status = spec_table status'
  ∧ (spec_table status = bad_request → msg = msg').
Proof.
  intros Hs Hs' Heq.
  pose proof (status_error_table status msg Hs) as Ht.
  pose proof (status_error_table status' msg' Hs') as Ht'.
  destruct (spec_table status), (spec_table status');
    simpl in Ht, Ht'; try discriminate;
    injection Ht as Ht; injection Ht' as Ht'; rewrite <- Ht, <- Ht' in Heq;
    cbn in Heq; try discriminate; split; try done.
  intros _. repeat injection Heq as Heq.
  by rewrite !append_empty_r in Heq.
Qed.

Lemma responseParse_no_error_inv {T} `{Unmarshaler T} (resp : Response) (out v : T) :
  responseParse resp out = (v, None) →
  failure (Body resp) = None ∧ StatusCode resp = 200
  ∧ decodeBody (content (Body resp)) out = (v, None).
Proof.
  intros Hr. destruct (failure (Body resp)) as [err|] eqn:Hf.
  { rewrite (responseParse_read_error resp out err) in Hr by done. discriminate. }
  destruct (decide (StatusCode resp = 200)) as [Hs|Hs].
  - rewrite responseParse_OK in Hr by done.
    destruct (decodeBody (content (Body resp)) out) as [o [e|]]; [discriminate|].
    by inversion Hr.
  - destruct (status_error_is_error resp out Hf Hs) as [_ Herr].
    rewrite Hr in Herr. done.
Qed.

(** The events of the course of a call. *)
Lemma call_outcome_events {T} `{Unmarshaler T} `{GoZero T}
    (cl : Client) (c : Context) (reqURL : URL) (σ : State)
    (r : option T * option error) (σ' : State) :
  call_outcome cl c reqURL σ = Some (r, σ') →
  ∃ evs, σ' = after σ evs
    ∧ ((∃ s, evs = [ev_NewRequest "POST" s] ∧ fst r = None)
       ∨ (∃ s req, evs = [ev_NewRequest "POST" s; ev_Do req] ∧ fst r = None)
       ∨ (∃ s req hc resp,
            evs = [ev_NewRequest "POST" s; ev_Do req; ev_Close (Body resp)]
            ∧ HTTPClient cl = Some hc
            ∧ Transport hc (trace σ ++ [ev_NewRequest "POST" s]) req = inl resp
            ∧ r = returned (responseParse resp zero))).
Proof.
  intros Hrun. apply call_outcome_inv in Hrun.
  destruct Hrun as [(err & _ & -> & ->)|(u & hc & _ & Hhc & Hrun)].
  - eexists. split; [done|]. left. by eexists.
  - destruct Hrun as [(err & _ & -> & ->)|(resp & Ht & -> & ->)].
    + eexists. split; [done|]. right. left. by eexists _, _.
    + eexists. split; [done|]. right. right. by eexists _, _, hc, resp.
Qed.

Lemma call_outcome_is_Some {T} `{Unmarshaler T} `{GoZero T}
    (cl : Client) (c : Context) (reqURL : URL) (σ : State) :
  is_Some (HTTPClient cl) → is_Some (call_outcome (T := T) cl c reqURL σ).
Proof.
  intros [hc Hhc]. unfold call_outcome. rewrite Hhc.
  destruct (url_Parse (URL_String reqURL)) as [u|err]; [|done].
  destruct (Transport hc _ (outgoing c u)); done.
Qed.


Lemma call_outcome_result_inv {T} `{Unmarshaler T} `{GoZero T}
    (cl : Client) (c : Context) (reqURL : URL) (σ : State)
    (v : T) (e : option error) (σ' : State) :
  call_outcome cl c reqURL σ = Some ((Some v, e), σ') →
  e = None
  ∧ ∃ hc s req resp,
      HTTPClient cl = Some hc
      ∧ Transport hc (trace σ ++ [ev_NewRequest "POST" s]) req = inl resp
      ∧ StatusCode resp = 200 ∧ failure (Body resp) = None
      ∧ decodeBody (content (Body resp)) zero = (v, None).
Proof.
  intros Hrun. apply call_outcome_events in Hrun as (evs & _ & Hevs).
  destruct Hevs as [(s & _ & Hr)|[(s & req & _ & Hr)
                   |(s & req & hc & resp & _ & Hhc & Ht & Hr)]]; [done|done|].
  destruct (returned_cases (responseParse resp (zero : T)))
    as [(v' & Hret & Hsnd & Hfst)|(e' & Hret & _)]; rewrite Hret in Hr; [|done].
  injection Hr as -> ->. split; [done|]. exists hc, s, req, resp.
  split; [done|]. split; [done|].
  destruct (responseParse_no_error_inv resp zero v') as (Hf & Hs & Hd).
  { destruct (responseParse resp zero) as [o oe]. simpl in *. by subst. }
  done.
Qed.

(** X7.  Whenever a call returns a result it returns no error with it, and
    the result is what the body of a response with status 200, read to its
    end, decodes to from the zero value: no other status and no other course
    of the call gives a result. *)
Theorem calls_result_from_200 c ctx text sourceLang targetLang σ :
  let from_200 {T} `{Unmarshaler T} `{GoZero T} (v : T) :=
    ∃ cl hc s req resp,
      clients σ !! c = Some cl ∧ HTTPClient cl = Some hc
      ∧ Transport hc (trace σ ++ [ev_NewRequest "POST" s]) req = inl resp
      ∧ StatusCode resp = 200 ∧ failure (Body resp) = None
      ∧ decodeBody (content (Body resp)) zero = (v, None) in
  (∀ v e σ', TranslateSentence c ctx text sourceLang targetLang σ
             = Some ((Some v, e), σ') → e = None ∧ from_200 v)
  ∧ (∀ v e σ', GetAccountStatus c ctx σ = Some ((Some v, e), σ') →
     e = None ∧ from_200 v).
Proof.
  intros from_200. split; intros v e σ' Hrun.
  - apply TranslateSentence_cases in Hrun as (cl & u & Hc & Hu & Hrun).
    destruct Hrun as [(e' & _ & _ & ? & _)|(key & Hk & Hne & Hrun)]; [done|].
    apply call_outcome_result_inv in Hrun as (-> & hc & s & req & resp & Hrest).
    split; [done|]. by exists cl, hc, s, req, resp.
  - apply GetAccountStatus_cases in Hrun as (cl & u & Hc & Hu & Hrun).
    destruct Hrun as [(e' & _ & _ & ? & _)|(key & Hk & Hne & Hrun)]; [done|].
    apply call_outcome_result_inv in Hrun as (-> & hc & s & req & resp & Hrest).
    split; [done|]. by exists cl, hc, s, req, resp.
Qed.

(** X8.  When the client returns an error for the request, each call
    returns the nil pointer and an error that wraps it, with the text of the
    cause after [Failed to send http request: ]; the request was created and
    sent once, and no body is closed. *)
Theorem calls_transport_error c ctx text sourceLang targetLang σ cl u hc key err :
  clients σ !! c = Some cl → urls σ !! BaseURL cl = Some u →
  HTTPClient cl = Some hc →
  environ σ !! credential = Some key → key ≠ "" →
  (∀ h req, Transport hc h req = inr err) →
  let e := xerrors_Errorf "Failed to send http request: %w" (arg_w err) in
  let translate :=
    endpoint_URL u "translate"
      (translate_query (url_ParseQuery (RawQuery u)) key text sourceLang targetLang) in
  let usage := endpoint_URL u "usage" (usage_query (url_ParseQuery (RawQuery u)) key) in
  Error e = "Failed to send http request: " +:+ Error err
  ∧ category e = Some NetworkError
  ∧ (∀ ru, url_Parse (URL_String translate) = inl ru →
       TranslateSentence c ctx text sourceLang targetLang σ
       = Some ((None, Some e),
               after σ [ev_NewRequest "POST" (URL_String translate);
                        ev_Do (outgoing ctx ru)]))
  ∧ (∀ ru, url_Parse (URL_String usage) = inl ru →
       GetAccountStatus c ctx σ
       = Some ((None, Some e),
               after σ [ev_NewRequest "POST" (URL_String usage);
                        ev_Do (outgoing ctx ru)])).
Proof.
  intros Hc Hu Hhc Hk Hne Hoff e translate usage.
  split; [|split; [done|split]].
  - subst e. simpl. by rewrite append_empty_r.
  - intros ru Hp.
    rewrite (TranslateSentence_run c ctx text sourceLang targetLang σ cl u key) by done.
    fold translate. unfold call_outcome. by rewrite Hp, Hhc, Hoff.
  - intros ru Hp. rewrite (GetAccountStatus_run c ctx σ cl u key) by done.
    fold usage. unfold call_outcome. by rewrite Hp, Hhc, Hoff.
Qed.

(** X9.  [New] returns a client or an error, never both and never neither.
    A client that [New] returned is new, the clients that were there are as
    they were, and neither call stops on a nil pointer when it is made on the
    new client. *)
Theorem New_client_is_usable rawBaseURL logger σ p e σ1 :
  New rawBaseURL logger σ = Some ((p, e), σ1) →
  (is_Some p ↔ e = None)
  ∧ ∀ c, p = Some c →
      clients σ !! c = None
      ∧ (∀ c' cl', clients σ !! c' = Some cl' → clients σ1 !! c' = Some cl')
      ∧ ∀ ctx text sourceLang targetLang,
          is_Some (TranslateSentence c ctx text sourceLang targetLang σ1)
          ∧ is_Some (GetAccountStatus c ctx σ1).
Proof.
  unfold New. destruct (url_Parse rawBaseURL) as [baseURL|perr].
  2: { intros Hnew. inversion Hnew; subst. split.
       - split; [intros [? ?]; done|done].
       - done. }
  unfold mbind, M_bind, alloc_URL, alloc_Client, mret, M_ret. simpl.
  intros Hnew. inversion Hnew; subst; clear Hnew.
  split; [split; [done|by eexists]|].
  intros c Heq. injection Heq as <-.
  assert (Hfresh : clients σ !! fresh (dom (clients σ)) = None)
    by apply not_elem_of_dom, is_fresh.
  split; [done|]. split.
  - intros c' cl' Hc'. simpl. rewrite lookup_insert_ne; [done|]. congruence.
  - intros ctx text sourceLang targetLang.
    set (σ1 := {| environ := environ σ; clients := _; urls := _; trace := trace σ |}).
    assert (Hc : clients σ1 !! fresh (dom (clients σ))
                 = Some {| BaseURL := fresh (dom (urls σ));
                           HTTPClient := Some http_DefaultClient;
                           Logger := match logger with
                                     | Some l => Some l
                                     | None => Some (log_New os_Stderr "[Log]" log_LstdFlags)
                                     end |}) by apply lookup_insert_eq.
    assert (Hu : urls σ1 !! fresh (dom (urls σ)) = Some baseURL)
      by apply lookup_insert_eq.
    destruct (getAPIKey_cases σ1) as [(key & Hk & Hne & _)|(e & _ & _ & Hget)].
    + rewrite (TranslateSentence_run _ ctx text sourceLang targetLang σ1 _ baseURL key)
        by done.
      rewrite (GetAccountStatus_run _ ctx σ1 _ baseURL key) by done.
      split; by apply call_outcome_is_Some.
    + rewrite (TranslateSentence_no_credential _ ctx text sourceLang targetLang σ1
                 _ baseURL e Hc Hu Hget).
      rewrite (GetAccountStatus_no_credential _ ctx σ1 _ baseURL e Hc Hu Hget).
      done.
Qed.

(** *** Objects without the members of a struct *)

Lemma equalFold_refl (s : string) : equalFold s s = true.
Proof. unfold equalFold. apply String.eqb_refl. Qed.

Lemma find_field_None {T} (fields : list (field T)) (key : string) :
  (∀ f, f ∈ fields → equalFold (fst f) key = false) →
  find_field fields key = None.
Proof.
  intros Hno. unfold find_field.
  assert (Hfold : find (λ f, equalFold (fst f) key) fields = None).
  { induction fields as [|f fields IH]; [done|]. simpl.
    rewrite (Hno f) by left. apply IH. intros g Hg. apply Hno. by right. }
  assert (Hexact : find (λ f, String.eqb (fst f) key) fields = None).
  { induction fields as [|f fields IH]; [done|]. simpl.
    destruct (String.eqb_spec (fst f) key) as [Heq|_].
    - specialize (Hno f ltac:(left)). rewrite Heq, equalFold_refl in Hno. done.
    - apply IH.
      + intros g Hg. apply Hno. by right.
      + simpl in Hfold. rewrite (Hno f) in Hfold by left. done. }
  by rewrite Hexact, Hfold.
Qed.

Lemma unmarshal_struct_no_member {T} (tyname : string) (fields : list (field T))
    (members : list (string * json)) (cur : T) :
  (∀ m f, m ∈ members → f ∈ fields → equalFold (fst f) (fst m) = false) →
  unmarshal_struct tyname fields (JObject members) cur = (cur, None).
Proof.
  intros Hno. unfold unmarshal_struct.
  induction members as [|m members IH]; [done|]. simpl.
  unfold store_member at 2. rewrite find_field_None.
  - apply IH. intros m' f Hm' Hf. apply Hno; [by right|done].
  - intros f Hf. apply Hno; [by left|done].
Qed.



Lemma unmarshal_AccountStatus_json (count limit : json) (out : AccountStatus) :
  unmarshal_value (AccountStatus_json count limit) out
  = (let '(n, e1) := unmarshal_int count (CharacterCount out) in
     let '(m, e2) := unmarshal_int limit (CharacterLimit out) in
     ({| CharacterCount := n; CharacterLimit := m |}, saveError e1 e2)).
Proof.
  unfold unmarshal_value at 1, unmarshal_AccountStatus, unmarshal_struct,
    AccountStatus_json.
  cbn [fold_left]. unfold store_member.
  change (find_field AccountStatus_fields (fst ("character_count", count)))
    with (Some (snd (("character_count", fun j r =>
       let '(n, e) := unmarshal_value j (CharacterCount r) in
       ({| CharacterCount := n; CharacterLimit := CharacterLimit r |}, e))
       : field AccountStatus))).
  change (find_field AccountStatus_fields (fst ("character_limit", limit)))
    with (Some (snd (("character_limit", fun j r =>
       let '(n, e) := unmarshal_value j (CharacterLimit r) in
       ({| CharacterCount := CharacterCount r; CharacterLimit := n |}, e))
       : field AccountStatus))).
  cbn [fst snd]. unfold unmarshal_value.
  destruct (unmarshal_int count (CharacterCount out)) as [n e1].
  cbn [fst snd CharacterCount CharacterLimit].
  destruct (unmarshal_int limit (CharacterLimit out)) as [m e2].
  destruct e1; reflexivity.
Qed.

(** X5.  When the credential is set, the request is created and the client
    answers it with status 200 and a body, read to its end, that is the JSON
    text of an object with the members [character_count] and
    [character_limit]: if each of the two is an integer literal that fits an
    [int], or [null], [GetAccountStatus] returns no error and the two counts
    (0 for [null]); if one of them is an integer that does not fit, a literal
    with a fraction or an exponent, or not a number, it returns the nil
    pointer and a decode error. *)
Theorem GetAccountStatus_decodes c ctx σ cl u hc key ru resp count limit :
  clients σ !! c = Some cl → urls σ !! BaseURL cl = Some u →
  HTTPClient cl = Some hc →
  environ σ !! credential = Some key → key ≠ "" →
  let reqURL := endpoint_URL u "usage" (usage_query (url_ParseQuery (RawQuery u)) key) in
  url_Parse (URL_String reqURL) = inl ru →
  Transport hc (trace σ ++ [ev_NewRequest http_MethodPost (URL_String reqURL)])
    (outgoing ctx ru) = inl resp →
  StatusCode resp = 200 → failure (Body resp) = None →
  json_scan (content (Body resp)) = Some (AccountStatus_json count limit) →
  let stored (j : json) : option Z :=
    match j with
    | JInt n => if fits_int n then Some n else None
    | JNull => Some 0
    | _ => None
    end in
  match stored count, stored limit with
  | Some n, Some m =>
      ∃ σ', GetAccountStatus c ctx σ
            = Some ((Some {| CharacterCount := n; CharacterLimit := m |}, None), σ')
  | _, _ =>
      ∃ e σ', GetAccountStatus c ctx σ = Some ((None, Some e), σ')
              ∧ category e = Some DecodeError
  end.
Proof.
  intros Hc Hu Hhc Hk Hne reqURL Hp Ht Hs Hf Hj stored.
  rewrite (GetAccountStatus_run c ctx σ cl u key) by done.
  fold reqURL. unfold call_outcome. rewrite Hp, Hhc, Ht.
  rewrite responseParse_OK by done.
  unfold decodeBody, json_Unmarshal. rewrite Hj.
  rewrite unmarshal_AccountStatus_json. subst stored.
  unfold unmarshal_int, zero, zero_AccountStatus, zero, zero_int.
  cbn [CharacterCount CharacterLimit].
  destruct count as [|b|n|lit|s|elems|members];
    destruct limit as [|b'|n'|lit'|s'|elems'|members'];
    repeat match goal with
    | |- context [fits_int ?x] => destruct (fits_int x)
    end;
    first [ by eexists | by do 2 eexists ].
Qed.

(** *** The older [TranslateSentence] next to the one of [deepl.go] *)

Lemma TranslateSentence_no_Client c ctx text sourceLang targetLang σ :
  clients σ !! c = None →
  TranslateSentence c ctx text sourceLang targetLang σ = None
  ∧ Older.TranslateSentence c ctx text sourceLang targetLang σ = None.
Proof.
  intros Hc. split; apply bind_None; unfold load_Client; by rewrite Hc.
Qed.

Lemma Older_TranslateSentence_no_URL c ctx text sourceLang targetLang σ cl :
  clients σ !! c = Some cl → urls σ !! BaseURL cl = None →
  Older.TranslateSentence c ctx text sourceLang targetLang σ = None.
Proof.
  intros Hc Hu. unfold Older.TranslateSentence.
  rewrite (bind_Some _ _ σ cl σ) by by apply load_Client_Some.
  apply bind_None. unfold load_URL. by rewrite Hu.
Qed.

Lemma Older_TranslateSentence_without_key c ctx text sourceLang targetLang σ cl u :
  clients σ !! c = Some cl → urls σ !! BaseURL cl = Some u →
  (environ σ !! credential = None →
   Older.TranslateSentence c ctx text sourceLang targetLang σ
   = Some ((Some zero, Some (xerrors_Errorf "Not set API key environment" no_args)), σ))
  ∧ (environ σ !! credential = Some "" →
     Older.TranslateSentence c ctx text sourceLang targetLang σ
     = Some ((Some zero, Some (xerrors_Errorf "DEEPL_API_KEY is empty" no_args)), σ)).
Proof.
  intros Hc Hu. unfold credential.
  split; intros Hk; unfold Older.TranslateSentence;
    rewrite (bind_Some _ _ σ cl σ) by (by apply load_Client_Some);
    rewrite (bind_Some _ _ σ u σ) by (by apply load_URL_Some);
    unfold mbind, M_bind, os_LookupEnv; rewrite Hk; reflexivity.
Qed.

(** The older function with the credential set: the same course as in
    [deepl.go], with the classification of the response written in line. *)
Lemma Older_TranslateSentence_run c ctx text sourceLang targetLang σ cl u key :
  clients σ !! c = Some cl → urls σ !! BaseURL cl = Some u →
  environ σ !! credential = Some key → key ≠ "" →
  let reqURL :=
    endpoint_URL u "translate"
      (translate_query (url_ParseQuery (RawQuery u)) key text sourceLang targetLang) in
  let created := ev_NewRequest http_MethodPost (URL_String reqURL) in
  Older.TranslateSentence c ctx text sourceLang targetLang σ
  = match url_Parse (URL_String reqURL) with
    | inr err =>
        Some ((Some zero,
               Some (xerrors_Errorf "Failed to create request: %w" (arg_w err))),
              after σ [created])
    | inl ru =>
        match HTTPClient cl with
        | None => None
        | Some hc =>
            match Transport hc (trace σ ++ [created]) (outgoing ctx ru) with
            | inr err =>
                Some ((Some zero,
                       Some (xerrors_Errorf "Failed to send http request: %w" (arg_w err))),
                      after σ [created; ev_Do (outgoing ctx ru)])
            | inl resp =>
                Some (match failure (Body resp) with
                      | Some err =>
                          (Some zero,
                           Some (xerrors_Errorf "Failed to read response: %w" (arg_w err)))
                      | None =>
                          if StatusCode resp =? 200 then
                            (Some (fst (Older.decodeBody (content (Body resp))
                                          (zero : TranslateResponse))),
                             snd (Older.decodeBody (content (Body resp))
                                    (zero : TranslateResponse)))
                          else
                            match content (Body resp) with
                            | [] => (Some zero, Some (status_error (StatusCode resp) ""))
                            | bodyBytes =>
                                match Older.decodeBody bodyBytes (zero : ErrorResponse) with
                                | (_, Some err) =>
                                    (Some zero,
                                     Some (xerrors_Errorf
                                             "Failed to decode error response: %w"
                                             (arg_w err)))
                                | (errResp, None) =>
                                    (Some zero,
                                     Some (status_error (StatusCode resp)
                                             (ErrMessage errResp)))
                                end
                            end
                      end,
                      after σ [created; ev_Do (outgoing ctx ru); ev_Close (Body resp)])
            end
        end
    end.
Proof.
  intros Hc Hu Hk Hne reqURL created. unfold Older.TranslateSentence.
  rewrite (bind_Some _ _ σ cl σ) by by apply load_Client_Some.
  rewrite (bind_Some _ _ σ u σ) by by apply load_URL_Some.
  unfold credential in Hk.
  rewrite (bind_Some _ _ σ (key, true) σ) by (unfold os_LookupEnv; by rewrite Hk).
  cbv beta iota. change (negb true) with false. cbv iota.
  destruct (String.eqb_spec key "") as [|_]; [done|].
  rewrite (bind_Some _ _ σ key σ) by (unfold os_Getenv; by rewrite Hk).
  change (set_RawQuery _ _) with reqURL.
  unfold http_NewRequest, mbind, M_bind, emit, mret, M_ret. simpl.
  fold created.
  destruct (url_Parse (URL_String reqURL)) as [ru|err]; [|reflexivity].
  unfold Do. destruct (HTTPClient cl) as [hc|]; [|reflexivity].
  unfold emit, set_Header, WithContext, Header_Set. simpl.
  change (<["User-Agent":=["Deepl-Go-Client"]]> (∅ : Values))
    with ({["User-Agent" := ["Deepl-Go-Client"]]} : Values).
  change {| Method := http_MethodPost; ReqURL := ru;
            Header := {["User-Agent" := ["Deepl-Go-Client"]]}; ctx := ctx |}
    with (outgoing ctx ru).
  destruct (Transport hc (trace σ ++ [created]) (outgoing ctx ru)) as [resp|err].
  2: { unfold after. simpl. rewrite <- !app_assoc. reflexivity. }
  unfold ioutil_ReadAll, Close, emit, after. simpl.
  destruct (failure (Body resp)) as [rerr|].
  { simpl. rewrite <- !app_assoc. reflexivity. }
  destruct (StatusCode resp =? 200) eqn:Hs; simpl.
  - unfold http_StatusOK. rewrite Hs. simpl.
    destruct (Older.decodeBody (content (Body resp)) zero) as [o [e|]]; simpl;
      rewrite <- !app_assoc; reflexivity.
  - unfold http_StatusOK. rewrite Hs. simpl.
    destruct (content (Body resp)) as [|b bs]; simpl.
    + rewrite <- !app_assoc. reflexivity.
    + destruct (Older.decodeBody (b :: bs) zero) as [er [e|]]; simpl;
        rewrite <- !app_assoc; reflexivity.
Qed.

(** Both functions return an error, with the same text. *)
Local Ltac same_text :=
  cbn [fst snd]; cbv beta iota;
  split; [done|]; split; [done|]; split; [done|];
  intros ? ? [= <-] [= <-]; split; [done|]; by left.



End More.

(** ** The checks of the tests *)

Lemma translation_eqb (v w : translation) :
  negb (String.eqb (DetectedSourceLanguage v) (DetectedSourceLanguage w))
  || negb (String.eqb (Text v) (Text w)) = false ↔ v = w.
Proof.
  destruct v as [d t], w as [d' t']. simpl.
  destruct (String.eqb_spec d d'), (String.eqb_spec t t'); simpl;
    split; congruence.
Qed.

Lemma range_Translations_passes (i : nat) (items expected : list translation) :
  Tests.range_Translations i items expected = Tests.passes
  ↔ items `prefix_of` drop i expected.
Proof.
  revert i. induction items as [|v rest IH]; intros i; simpl.
  { split; [intros _; apply prefix_nil|done]. }
  destruct (expected !! i) as [w|] eqn:Hw.
  - rewrite (drop_S _ w) by done.
    destruct (negb (String.eqb (DetectedSourceLanguage v) (DetectedSourceLanguage w))
              || negb (String.eqb (Text v) (Text w))) eqn:Hcmp.
    + split; [done|]. intros Hp. apply prefix_cons_inv_1 in Hp.
      apply translation_eqb in Hp. congruence.
    + apply translation_eqb in Hcmp as ->. rewrite IH. split.
      * apply prefix_cons.
      * apply prefix_cons_inv_2.
  - rewrite drop_ge by by apply lookup_ge_None. split; [done|].
    intros Hp. by apply prefix_nil_not in Hp.
Qed.

(** X13.  The check of [TestClient_TranslateSentence] on a call that
    returned no error passes exactly when the translations of the result are
    the first translations of the expected response, in order: it passes on a
    result with no translation at all, and a result with more translations
    than expected, the first ones as expected, makes the test panic. *)
Theorem check_TranslateSentence_passes_iff (expected got : TranslateResponse) :
  (Tests.check_TranslateSentence "" (Some expected) (Some got, None) = Tests.passes
   ↔ Translations got `prefix_of` Translations expected)
  ∧ Tests.check_TranslateSentence "" (Some expected) (Some zero, None) = Tests.passes
  ∧ (Translations expected `prefix_of` Translations got →
     Translations got ≠ Translations expected →
     Tests.check_TranslateSentence "" (Some expected) (Some got, None) = Tests.panics).
Proof.
  assert (Hcheck : Tests.check_TranslateSentence "" (Some expected) (Some got, None)
                   = Tests.range_Translations 0 (Translations got) (Translations expected)).
  { unfold Tests.check_TranslateSentence. simpl. by destruct (Translations got). }
  split; [|split].
  - rewrite Hcheck. apply range_Translations_passes.
  - reflexivity.
  - rewrite Hcheck. intros [extra Hgot] Hne. rewrite Hgot.
    assert (Hextra : extra ≠ []).
    { intros ->. rewrite app_nil_r in Hgot. done. }
    clear Hgot Hne Hcheck.
    assert (Hgen : ∀ seen todo,
      Tests.range_Translations (length seen) (todo ++ extra)%list (seen ++ todo)%list
      = Tests.panics).
    { intros seen todo. revert seen.
      induction todo as [|w todo IH]; intros seen.
      - destruct extra as [|x extra']; [done|]. simpl.
        rewrite app_nil_r, lookup_ge_None_2 by done. done.
      - simpl. rewrite lookup_app_r, Nat.sub_diag by done. simpl.
        rewrite (proj2 (translation_eqb w w) eq_refl).
        specialize (IH (seen ++ [w])%list).
        rewrite length_app, Nat.add_1_r, <- app_assoc in IH. exact IH. }
    apply (Hgen [] (Translations expected)).
Qed.

(** The check of the sub-tests that expect [Bad request.] passes on
    the error of every 400 response, whatever the message of the provider is,
    also an empty one. *)
Theorem check_Bad_request_any_message (message : string)
    (expected : option TranslateResponse) :
  Tests.check_TranslateSentence "Bad request." expected
    (None, Some (status_error 400 message))
  = Tests.passes.
Proof. reflexivity. Qed.

(** ** The further properties at concrete inputs *)

Lemma getAPIKey_key_or_error_witness :
  environ (process (Some "KEY") server (answering 200 usage_body)) !! credential
  = Some "KEY".
Proof.
  exact (proj1 (proj2 (proj2
    (getAPIKey_key_or_error (process (Some "KEY") server (answering 200 usage_body))
       "KEY" None (process (Some "KEY") server (answering 200 usage_body))
       ltac:(vm_compute; reflexivity)))) eq_refl).
Defined.

Lemma status_error_text_tells_row_witness : spec_table 500 = spec_table 502.
Proof.
  exact (proj1 (status_error_text_tells_row 500 502 "a" "b"
                  ltac:(discriminate) ltac:(discriminate) ltac:(reflexivity))).
Defined.


Lemma calls_result_from_200_witness :
  ∃ resp : Response,
    StatusCode resp = 200
    ∧ decodeBody (H := std) (content (Body resp)) zero
      = ({| CharacterCount := 30315; CharacterLimit := 1000000 |}, None).
Proof.
  set (σ := process (Some "KEY") server (answering 200 usage_body)).
  assert (Hrun : GetAccountStatus (H := std) 1 context_Background σ
                 = Some ((Some {| CharacterCount := 30315; CharacterLimit := 1000000 |},
                          None),
                         after σ [ev_NewRequest "POST"
                                    "http://127.0.0.1:8080/v2/usage?auth_key=KEY";
                                  ev_Do (outgoing context_Background
                                           {| Scheme := "http"; Host := "127.0.0.1:8080";
                                              Path := "/v2/usage";
                                              RawQuery := "auth_key=KEY" |});
                                  ev_Close {| content := Std.text usage_body;
                                              failure := None |}]))
    by (vm_compute; reflexivity).
  destruct (proj2 (calls_result_from_200 (H := std) 1 context_Background "" "" "" σ)
              _ _ _ Hrun) as (_ & cl & hc & s & req & resp & _ & _ & _ & Hs & _ & Hd).
  exists resp. split; [exact Hs|exact Hd].
Defined.

Lemma calls_transport_error_witness :
  ∃ e σ',
    GetAccountStatus (H := std) 1 context_Background
      (process (Some "KEY") server Std.offline)
    = Some ((None, Some e), σ')
    ∧ Error e = "Failed to send http request: dial tcp: connection refused".
Proof.
  destruct (calls_transport_error (H := std) 1 context_Background "Hello" "EN" "JA"
              (process (Some "KEY") server Std.offline) (cli Std.offline) server
              Std.offline "KEY" (foreign_error "dial tcp: connection refused")
              ltac:(vm_compute; reflexivity) ltac:(vm_compute; reflexivity)
              ltac:(reflexivity) ltac:(vm_compute; reflexivity) ltac:(discriminate)
              ltac:(reflexivity)) as (Htext & _ & _ & Husage).
  eexists _, _. split; [|exact Htext].
  exact (Husage {| Scheme := "http"; Host := "127.0.0.1:8080"; Path := "/v2/usage";
                   RawQuery := "auth_key=KEY" |} ltac:(vm_compute; reflexivity)).
Defined.

Lemma New_client_is_usable_witness :
  ∃ c σ1,
    New (H := std) "https://api.deepl.com" None
      (process (Some "KEY") server Std.offline)
    = Some ((Some c, None), σ1)
    ∧ is_Some (GetAccountStatus (H := std) c context_Background σ1).
Proof.
  destruct (New (H := std) "https://api.deepl.com" None
              (process (Some "KEY") server Std.offline))
    as [[[[c|] [e|]] σ1]|] eqn:Hnew; try (vm_compute in Hnew; discriminate).
  exists c, σ1. split; [reflexivity|].
  destruct (New_client_is_usable (H := std) _ _ _ _ _ _ Hnew) as [_ Huse].
  destruct (Huse c eq_refl) as (_ & _ & Hcalls).
  exact (proj2 (Hcalls context_Background "" "" "")).
Defined.



Lemma GetAccountStatus_decodes_witness :
  ∃ σ',
    GetAccountStatus (H := std) 1 context_Background
      (process (Some "KEY") server (answering 200 usage_body))
    = Some ((Some {| CharacterCount := 30315; CharacterLimit := 1000000 |}, None), σ').
Proof.
  exact (GetAccountStatus_decodes (H := std) 1 context_Background
           (process (Some "KEY") server (answering 200 usage_body))
           (cli (answering 200 usage_body)) server (answering 200 usage_body) "KEY"
           {| Scheme := "http"; Host := "127.0.0.1:8080"; Path := "/v2/usage";
              RawQuery := "auth_key=KEY" |}
           {| StatusCode := 200;
              Body := {| content := Std.text usage_body; failure := None |} |}
           (JInt 30315) (JInt 1000000)
           ltac:(vm_compute; reflexivity) ltac:(vm_compute; reflexivity)
           ltac:(reflexivity) ltac:(vm_compute; reflexivity) ltac:(discriminate)
           ltac:(vm_compute; reflexivity) ltac:(reflexivity)
           ltac:(reflexivity) ltac:(reflexivity) ltac:(vm_compute; reflexivity)).
Defined.

